(** * p2pws_python: the event emitter and the reconnecting websocket client

    A shallow embedding of [p2pws_python/emitter/__init__.py],
    [p2pws_python/client.py] and [p2pws_python/types/p2pquakes/tsunami.py].

    Python objects are attribute stores, coroutines are computations that
    return a value or raise, and carry the client along; what a run prints,
    which handlers it awaits, which connections it opens and how long it
    sleeps is collected in a trace. *)

From Stdlib Require Import Floats Ascii String.
From stdpp Require Import gmap strings list fin_maps.

Local Open Scope string_scope.
Local Open Scope list_scope.
Set Warnings "-register-all".

(** ** Python values *)

(** Exception classes met in the sources and in the libraries they call.
    [ConnectionClosedOK] and [ConnectionClosedError] derive from
    [websockets.exceptions.ConnectionClosed]; [CancelledError],
    [KeyboardInterrupt] and [SystemExit] derive from [BaseException] only. *)
Inductive exn_class :=
| ConnectionClosed
| ConnectionClosedOK
| ConnectionClosedError
| TypeError
| KeyError
| AttributeError
| JSONDecodeError
| OSError
| RuntimeError
| CancelledError
| KeyboardInterrupt
| SystemExit.

Record exn := Exn { exn_cls : exn_class; exn_msg : string }.

(** [isinstance(e, websockets.exceptions.ConnectionClosed)] *)
Definition is_ConnectionClosed (e : exn) : bool :=
  match exn_cls e with
  | ConnectionClosed | ConnectionClosedOK | ConnectionClosedError => true
  | _ => false
  end.

(** [isinstance(e, Exception)] *)
Definition is_Exception (e : exn) : bool :=
  match exn_cls e with
  | CancelledError | KeyboardInterrupt | SystemExit => false
  | _ => true
  end.

(** Data as [json.loads] builds it, instances of the payload classes, and
    exception values (the argument of the [error] event). *)
Inductive pyval :=
| VNone
| VBool (b : bool)
| VInt (z : Z)
| VFloat (f : float)
| VStr (s : string)
| VList (l : list pyval)
| VDict (kvs : list (string * pyval))
| VInst (cls : string) (fields : list (string * pyval))
| VExc (e : exn).

(** The result of evaluating an expression or awaiting a coroutine. *)
Inductive pyresult (A : Type) :=
| Ok (a : A)
| Raise (e : exn).
Arguments Ok {A} a.
Arguments Raise {A} e.


(** Truth value of a datum, as [if v:] and [v or w] test it. *)
Definition truthy (v : pyval) : bool :=
  match v with
  | VNone => false
  | VBool b => b
  | VInt z => negb (z =? 0)%Z
  | VFloat f => negb (PrimFloat.eqb f 0%float)
  | VStr s => negb (String.eqb s "")
  | VList l => match l with [] => false | _ => true end
  | VDict kvs => match kvs with [] => false | _ => true end
  | VInst _ _ => true
  | VExc _ => true
  end.

(** [v == n] for an integer literal [n]. *)
Definition eq_int (v : pyval) (n : Z) : bool :=
  match v with
  | VInt z => (z =? n)%Z
  | VBool b => ((if b then 1 else 0) =? n)%Z
  | VFloat f => PrimFloat.eqb f (PrimFloat.of_uint63 (Uint63.of_Z n))
  | _ => false
  end.

(** Lookup in a dict kept as an association list. *)
Fixpoint assoc (k : string) (kvs : list (string * pyval)) : option pyval :=
  match kvs with
  | [] => None
  | (k', v) :: rest => if String.eqb k k' then Some v else assoc k rest
  end.

(** [v[k]] for a string key [k]. *)
Definition subscript (v : pyval) (k : string) : pyresult pyval :=
  match v with
  | VDict kvs =>
      match assoc k kvs with
      | Some x => Ok x
      | None => Raise (Exn KeyError k)
      end
  | VList _ => Raise (Exn TypeError "list indices must be integers or slices, not str")
  | VStr _ => Raise (Exn TypeError "string indices must be integers, not 'str'")
  | _ => Raise (Exn TypeError "object is not subscriptable")
  end.

(** [v.get(k, default)] *)
Definition dict_get (v : pyval) (k : string) (default : pyval) : pyresult pyval :=
  match v with
  | VDict kvs => Ok (match assoc k kvs with Some x => x | None => default end)
  | _ => Raise (Exn AttributeError "object has no attribute 'get'")
  end.

(** The one-character strings of a string. *)
Fixpoint chars (s : string) : list pyval :=
  match s with
  | EmptyString => []
  | String a rest => VStr (String a EmptyString) :: chars rest
  end.

(** The items [for x in v] runs over. *)
Definition iterate (v : pyval) : pyresult (list pyval) :=
  match v with
  | VList l => Ok l
  | VDict kvs => Ok (map (fun kv => VStr (fst kv)) kvs)
  | VStr s => Ok (chars s)
  | _ => Raise (Exn TypeError "object is not iterable")
  end.

(** ** Coroutines, objects and traces *)

(** An [async def] supplied by the user: its [__name__] and what awaiting a
    call of it yields.  A listener is opaque to the library; all that
    reaches the caller is whether it returned or which exception it raised.
    It is taken to depend on its arguments only and to leave the emitter
    object alone. *)
Record coro := Coro { co_name : string; co_body : list pyval -> pyresult unit }.

(** The methods [EventEmitter] defines. *)
Inductive method := M_init | M_on | M_emit.

(** What an attribute of the emitter object can hold. *)
Inductive pyobj :=
| OData (v : pyval)
| OCoroFn (h : coro)
| OMethod (m : method).

(** The attributes [getattr] finds on an object, those of its class
    included. *)
Abbreviation object := (gmap string pyobj).

(** The text handed to [print]; interpolated values are kept as values. *)
Inductive line :=
| AddingListener (name : string)
| NoListeners (event : string)
| Connecting (uri : string) (attempt : nat)
| ClosedNormally
| ClosedUnexpectedly
| ErrorOccurred (error : exn)
| MaxRetriesReached
| Waiting (retry_interval : float)
| ConnectedTo (url : string)
| ReceivedData (code : pyval)
| JsonParsingError
| Value (e : exn)
| ErrorAt (url : string)
| DisconnectedFrom (url : string).

Inductive effect :=
| Print (l : line)
| Await (h : coro) (args : list pyval)
| Publish (name : string) (args : list pyval)
| Connect (uri : string)
| Sleep (secs : float).

(** ** Computations

    A method body run on [self : S]: its result, the object afterwards and
    what it did, in order. *)
Definition M (S A : Type) : Type := S -> pyresult A * S * list effect.

Definition ret {S A} (a : A) : M S A := fun s => (Ok a, s, []).

Definition raise {S A} (e : exn) : M S A := fun s => (Raise e, s, []).

Definition bind {S A B} (m : M S A) (k : A -> M S B) : M S B :=
  fun s =>
    match m s with
    | (Ok a, s1, t1) => let '(r, s2, t2) := k a s1 in (r, s2, t1 ++ t2)
    | (Raise e, s1, t1) => (Raise e, s1, t1)
    end.

Definition tell {S} (ev : effect) : M S unit := fun s => (Ok tt, s, [ev]).

Definition eval {S A} (r : pyresult A) : M S A := fun s => (r, s, []).

Declare Scope py_scope.
Delimit Scope py_scope with py.
Notation "x <- m ;; k" := (bind m (fun x => k))
  (at level 100, m at next level, k at level 200, right associativity) : py_scope.
Notation "m ;; k" := (bind m (fun _ => k))
  (at level 100, k at level 200, right associativity) : py_scope.

Definition result_of {S A} (x : pyresult A * S * list effect) : pyresult A := x.1.1.
Definition self_of {S A} (x : pyresult A * S * list effect) : S := x.1.2.
Definition trace_of {S A} (x : pyresult A * S * list effect) : list effect := x.2.

(** ** emitter/__init__.py *)

Module EventEmitter.

(** [__init__]: the instance gets [_listeners = {}]; [on], [emit] and
    [__init__] itself are found through the class. *)
Definition init : object :=
  <["_listeners" := OData (VDict [])]>
    (<["__init__" := OMethod M_init]>
       (<["on" := OMethod M_on]> (<["emit" := OMethod M_emit]> ∅))).

(** [f.__name__] when [asyncio.iscoroutinefunction(f)] holds: for an
    [async def], and for the bound method [emit], which is one. *)
Definition coroutine_name (f : pyobj) : option string :=
  match f with
  | OCoroFn h => Some (co_name h)
  | OMethod M_emit => Some "emit"
  | _ => None
  end.

Definition on (f : pyobj) : M object pyobj :=
  match coroutine_name f with
  | None => raise (Exn TypeError "listener must be a coroutine function.")
  | Some name =>
      (tell (Print (AddingListener name)) ;;
       (fun self => (Ok tt, <[name := f]> self, [])) ;;
       ret f)%py
  end.

(** [if listener:] *)
Definition listener_truthy (listener : pyobj) : bool :=
  match listener with
  | OData v => truthy v
  | _ => true
  end.

(** [emit].  A listener found under [event] is whatever attribute has that
    name: a registered coroutine function, a method of the emitter, or a
    datum.  [await self.emit( *args )] is the one recursive call; it uses
    up the first argument. *)
Fixpoint emit (event : string) (args : list pyval) (self : object) {struct args}
    : pyresult unit * object * list effect :=
  match self !! event with
  | None => (Ok tt, self, [])
  | Some listener =>
      if listener_truthy listener then
        match listener with
        | OCoroFn h => (co_body h args, self, [Await h args])
        | OMethod M_emit =>
            match args with
            | [] => (Raise (Exn TypeError "emit() missing 1 required positional argument: 'event'"), self, [])
            | VStr ev :: rest => emit ev rest self
            | _ :: _ => (Raise (Exn TypeError "attribute name must be string"), self, [])
            end
        | OMethod M_on =>
            match args with
            | [] => (Raise (Exn TypeError "on() missing 1 required positional argument: 'f'"), self, [])
            | [f] =>
                match on (OData f) self with
                | (Ok _, self', t) => (Raise (Exn TypeError "object can't be used in 'await' expression"), self', t)
                | (Raise e, self', t) => (Raise e, self', t)
                end
            | _ => (Raise (Exn TypeError "on() takes 2 positional arguments but more were given"), self, [])
            end
        | OMethod M_init =>
            match args with
            | [] => (Raise (Exn TypeError "object NoneType can't be used in 'await' expression"),
                     <["_listeners" := OData (VDict [])]> self, [])
            | _ => (Raise (Exn TypeError "__init__() takes 1 positional argument but more were given"), self, [])
            end
        | OData _ => (Raise (Exn TypeError "object is not callable"), self, [])
        end
      else (Ok tt, self, [Print (NoListeners event)])
  end.

End EventEmitter.

(** ** Expressions that may raise *)

Definition and_then {A B} (r : pyresult A) (k : A -> pyresult B) : pyresult B :=
  match r with
  | Ok a => k a
  | Raise e => Raise e
  end.

Declare Scope expr_scope.
Delimit Scope expr_scope with expr.
Notation "x <- r ;; k" := (and_then r (fun x => k))
  (at level 100, r at next level, k at level 200, right associativity) : expr_scope.

(** [[f(x) for x in l]] *)
Fixpoint traverse (f : pyval -> pyresult pyval) (l : list pyval) : pyresult (list pyval) :=
  match l with
  | [] => Ok []
  | x :: rest => (y <- f x ;; ys <- traverse f rest ;; Ok (y :: ys))%expr
  end.

(** [self.k = v] on the fields of an instance under construction. *)
Fixpoint set_field (k : string) (v : pyval) (fields : list (string * pyval))
    : list (string * pyval) :=
  match fields with
  | [] => [(k, v)]
  | (k', v') :: rest =>
      if String.eqb k k' then (k, v) :: rest else (k', v') :: set_field k v rest
  end.

(** ** types/p2pquakes/tsunami.py *)

Section Tsunami.

(** [BasicData.__init__] of [types/p2pquakes/basicdata.py], which is not
    part of the sources at hand: the fields it sets on [self], or the
    exception it raises. *)
Variable BasicData_init : pyval -> pyresult (list (string * pyval)).

Local Open Scope expr_scope.

Definition TsunamiIssue (data : pyval) : pyresult pyval :=
  source <- subscript data "source" ;;
  time <- subscript data "time" ;;
  _type <- subscript data "type" ;;
  Ok (VInst "TsunamiIssue" [("source", source); ("time", time); ("_type", _type)]).

Definition FirstHeight (data : pyval) : pyresult pyval :=
  arrivalTime <- subscript data "arrivalTime" ;;
  condition <- dict_get data "condition" VNone ;;
  Ok (VInst "FirstHeight" [("arrivalTime", arrivalTime); ("condition", condition)]).

Definition MaxHeight (data : pyval) : pyresult pyval :=
  description <- subscript data "description" ;;
  value <- subscript data "value" ;;
  Ok (VInst "MaxHeight" [("description", description); ("value", value)]).

Definition TsunamiArea (data : pyval) : pyresult pyval :=
  grade <- subscript data "grade" ;;
  immediate <- subscript data "immediate" ;;
  name <- subscript data "name" ;;
  d1 <- subscript data "firstHeight" ;;
  firstHeight <- FirstHeight d1 ;;
  d2 <- subscript data "maxHeight" ;;
  maxHeight <- MaxHeight d2 ;;
  Ok (VInst "TsunamiArea"
        [("grade", grade); ("immediate", immediate); ("name", name);
         ("firstHeight", firstHeight); ("maxHeight", maxHeight)]).

Definition Tsunami (data : pyval) : pyresult pyval :=
  self <- BasicData_init data ;;
  _id <- (x <- subscript data "_id" ;;
          if truthy x then Ok x else subscript data "id") ;;
  self <- Ok (set_field "_id" _id self) ;;
  code <- subscript data "code" ;;
  self <- Ok (set_field "code" code self) ;;
  cancelled <- subscript data "cancelled" ;;
  self <- Ok (set_field "cancelled" cancelled self) ;;
  d <- subscript data "issue" ;;
  issue <- TsunamiIssue d ;;
  self <- Ok (set_field "issue" issue self) ;;
  areas <- (present <- dict_get data "areas" VNone ;;
            if truthy present
            then (src <- dict_get data "areas" (VList []) ;;
                  items <- iterate src ;;
                  l <- traverse TsunamiArea items ;;
                  Ok (VList l))
            else Ok VNone) ;;
  Ok (VInst "Tsunami" (set_field "areas" areas self)).

End Tsunami.

(** ** client.py *)

(** Modelled from the spec: [types/clientOptions.py] is not part of the
    sources at hand.  The spec gives the options as an immutable pair of
    booleans set at construction; the field names are those [client.py]
    reads. *)
Record ClientOptions := { isDebug : bool; isSandBox : bool }.

(** A [Client] is an [EventEmitter]: [attrs] are the attributes the emitter
    looks listeners up in.  The attributes the class body and [__init__] of
    [Client] declare are kept as fields of their own; [cache] is annotated
    in the class body but assigned nowhere, so there is no such field. *)
Record Client := {
  attrs : object;
  opt : ClientOptions;
  ws : option nat;
  isReady : bool
}.

(** What the server does with one connection attempt. *)
Inductive stream_end :=
| CloseOK
| RecvRaises (e : exn).

Inductive connection :=
| Refused (e : exn)
| Accepted (frames : list string) (fin : stream_end).

(** How the body of [while True] is left. *)
Inductive control := Break | Continue.

(** [try: body  except c1 as e: h1 e  except c2 as e: h2 e ...]: the first
    clause whose class matches handles the exception, and what a handler
    raises is not offered to the clauses after it. *)
Fixpoint dispatch {S A} (clauses : list ((exn -> bool) * (exn -> M S A))) (e : exn)
    : M S A :=
  match clauses with
  | [] => raise e
  | (catches, handler) :: rest =>
      if catches e then handler e else dispatch rest e
  end.

Definition try_excepts {S A} (body : M S A)
    (clauses : list ((exn -> bool) * (exn -> M S A))) : M S A :=
  fun s =>
    match body s with
    | (Ok a, s1, t1) => (Ok a, s1, t1)
    | (Raise e, s1, t1) => let '(r, s2, t2) := dispatch clauses e s1 in (r, s2, t1 ++ t2)
    end.

Section Client.

(** [json.loads]: the value a text parses to, [None] where it raises
    [json.JSONDecodeError]. *)
Variable json_parse : string -> option pyval.

(** The constructors of [types/p2pquakes/earthquakeReport.py],
    [types/p2pquakes/eew.py] and [BasicData.__init__], which are not part
    of the sources at hand. *)
Variable EarthquakeReports : pyval -> pyresult pyval.
Variable EEW : pyval -> pyresult pyval.
Variable BasicData_init : pyval -> pyresult (list (string * pyval)).

Local Open Scope py_scope.

Definition json_loads (message : string) : pyresult pyval :=
  match json_parse message with
  | Some data => Ok data
  | None => Raise (Exn JSONDecodeError "Expecting value")
  end.

Definition __init__ (isDebug isSandbox : bool) : Client :=
  {| attrs := EventEmitter.init;
     opt := {| isDebug := isDebug; isSandBox := isSandbox |};
     ws := None;
     isReady := false |}.

(** A method of [EventEmitter] run on a client. *)
Definition inherited {A} (m : M object A) : M Client A :=
  fun self =>
    let '(r, o, t) := m (attrs self) in
    (r, {| attrs := o; opt := opt self; ws := ws self; isReady := isReady self |}, t).

Definition on (f : pyobj) : M Client pyobj := inherited (EventEmitter.on f).

(** [await self.emit(event, *args)].  The call is recorded, so that a
    publication nobody listens to still shows in the trace. *)
Definition emit (event : string) (args : list pyval) : M Client unit :=
  tell (Publish event args) ;; inherited (EventEmitter.emit event args).

Definition __debug_message__ (message : line) : M Client unit :=
  fun self =>
    if isDebug (opt self) then (Ok tt, self, [Print message]) else (Ok tt, self, []).

Definition __get_ws_url__ (self : Client) : string :=
  if negb (isSandBox (opt self))
  then "wss://api.p2pquake.net/v2/ws"
  else "wss://api-realtime-sandbox.p2pquake.net/v2/ws".

Definition set_isReady (b : bool) : M Client unit :=
  fun self =>
    (Ok tt, {| attrs := attrs self; opt := opt self; ws := ws self; isReady := b |}, []).

Definition set_ws (websocket : nat) : M Client unit :=
  fun self =>
    (Ok tt, {| attrs := attrs self; opt := opt self; ws := Some websocket;
               isReady := isReady self |}, []).

Definition __on_ready : M Client unit :=
  set_isReady true ;;
  (fun self => __debug_message__ (ConnectedTo (__get_ws_url__ self)) self) ;;
  emit "ready" [].

(** [self.cache]: the construction of the cache is commented out in
    [__init__], so the attribute is missing unless a listener was
    registered under that name, and a coroutine function has no attribute
    [set] either. *)
Definition missing_cache (self : Client) : exn :=
  match attrs self !! "cache" with
  | None => Exn AttributeError "'Client' object has no attribute 'cache'"
  | Some _ => Exn AttributeError "object has no attribute 'set'"
  end.

(** [self.cache.set(dataClass._id, dataClass)].  [self.cache.set] is
    evaluated first and raises; the arguments are not evaluated. *)
Definition cache_set (dataClass : pyval) : M Client unit :=
  fun self => (Raise (missing_cache self), self, []).

(** The three branches of [__on_message] have one shape. *)
Definition handle (data : pyval) (code : Z) (decode : pyval -> pyresult pyval)
    (event : string) : M Client unit :=
  c <- eval (subscript data "code") ;;
  if eq_int c code then
    dataClass <- eval (decode data) ;;
    emit event [dataClass] ;;
    cache_set dataClass
  else ret tt.

Definition decode_and_emit (message : string) : M Client unit :=
  data <- eval (json_loads message) ;;
  c <- eval (subscript data "code") ;;
  __debug_message__ (ReceivedData c) ;;
  handle data 551 EarthquakeReports "earthquake" ;;
  handle data 552 (Tsunami BasicData_init) "tsunami" ;;
  handle data 556 EEW "eew".

Definition __on_message (message : string) : M Client unit :=
  emit "rawmessage" [VStr message] ;;
  try_excepts (decode_and_emit message)
    [(is_Exception,
      fun e => __debug_message__ JsonParsingError ;; __debug_message__ (Value e))].

Definition __on_error (error : exn) : M Client unit :=
  (fun self => __debug_message__ (ErrorAt (__get_ws_url__ self)) self) ;;
  __debug_message__ (Value error) ;;
  emit "error" [VExc error].

Definition __on_close : M Client unit :=
  (fun self => __debug_message__ (DisconnectedFrom (__get_ws_url__ self)) self) ;;
  set_isReady false ;;
  emit "close" [].

(** [async for message in websocket: await self.__on_message(message)].
    The iterator ends when the server closes the connection cleanly and
    raises otherwise. *)
Fixpoint receive (frames : list string) (fin : stream_end) : M Client unit :=
  match frames with
  | [] =>
      match fin with
      | CloseOK => ret tt
      | RecvRaises e => raise e
      end
  | message :: rest => __on_message message ;; receive rest fin
  end.

(** What follows the call of [websockets.connect]: entering the
    [async with] fails, or its body runs on the open connection.  Leaving
    the [async with] closes the connection and passes on what the body
    raised. *)
Definition handshake_and_body (websocket : nat) (conn : connection) : M Client unit :=
  match conn with
  | Refused e => raise e
  | Accepted frames fin =>
      set_ws websocket ;;
      __on_ready ;;
      receive frames fin
  end.

(** [async with websockets.connect(uri) as websocket: ...] *)
Definition session (uri : string) (websocket : nat) (conn : connection)
    : M Client unit :=
  tell (Connect uri) ;;
  handshake_and_body websocket conn.

(** [max_retries is not None and retries >= max_retries] *)
Definition max_retries_reached (max_retries : option Z) (retries : nat) : bool :=
  match max_retries with
  | None => false
  | Some m => (m <=? Z.of_nat retries)%Z
  end.

(** The two [except] clauses of [_start_async]. *)
Definition except_clauses : list ((exn -> bool) * (exn -> M Client control)) :=
  [(is_ConnectionClosed,
    fun _ => __debug_message__ ClosedUnexpectedly ;; __on_close ;; ret Continue);
   (is_Exception,
    fun error => __debug_message__ (ErrorOccurred error) ;; __on_error error ;;
                 ret Continue)].

(** The [try] statement of [_start_async]. *)
Definition attempt (uri : string) (websocket : nat) (conn : connection)
    : M Client control :=
  try_excepts
    (session uri websocket conn ;;
     __debug_message__ ClosedNormally ;;
     __on_close ;;
     ret Break)
    except_clauses.

(** One turn of [while True], from [retries] attempts made so far: how the
    turn ends and the counter after it. *)
Definition loop_body (max_retries : option Z) (retry_interval : float)
    (uri : string) (conn : connection) (retries : nat) : M Client (control * nat) :=
  __debug_message__ (Connecting uri (retries + 1)) ;;
  c <- attempt uri retries conn ;;
  match c with
  | Break => ret (Break, retries)
  | Continue =>
      let retries := retries + 1 in
      if max_retries_reached max_retries retries then
        __debug_message__ MaxRetriesReached ;;
        ret (Break, retries)
      else
        __debug_message__ (Waiting retry_interval) ;;
        tell (Sleep retry_interval) ;;
        ret (Continue, retries)
  end.

(** [while True] run for at most [fuel] turns against a server that treats
    the [n]-th connection attempt as [net n].  The result is the counter
    when the loop is left, [None] when the turns are used up first. *)
Fixpoint while_true (fuel : nat) (max_retries : option Z) (retry_interval : float)
    (uri : string) (net : nat -> connection) (retries : nat)
    : M Client (option nat) :=
  match fuel with
  | 0 => ret None
  | S fuel =>
      cr <- loop_body max_retries retry_interval uri (net retries) retries ;;
      match cr with
      | (Break, retries) => ret (Some retries)
      | (Continue, retries) =>
          while_true fuel max_retries retry_interval uri net retries
      end
  end.

Definition _start_async (fuel : nat) (max_retries : option Z) (retry_interval : float)
    (net : nat -> connection) : M Client (option nat) :=
  fun self =>
    let uri := __get_ws_url__ self in
    while_true fuel max_retries retry_interval uri net 0 self.

End Client.

(** [start()] awaits [_start_async()] with its defaults. *)
Definition start json_parse EarthquakeReports EEW BasicData_init
    (fuel : nat) (net : nat -> connection) : M Client (option nat) :=
  _start_async json_parse EarthquakeReports EEW BasicData_init fuel (Some 10%Z) 5%float net.

(** ** Reading traces *)

(** The publications of a trace: event name and arguments, in order. *)
Definition publications (t : list effect) : list (string * list pyval) :=
  omap (fun ev => match ev with Publish name args => Some (name, args) | _ => None end) t.

(** How often [event] is published in a trace. *)
Definition published (event : string) (t : list effect) : nat :=
  length (filter (fun p => p.1 = event) (publications t)).

(** The connections opened and the delays slept, in order. *)
Definition schedule (t : list effect) : list (string + float) :=
  omap (fun ev => match ev with
                  | Connect uri => Some (inl uri)
                  | Sleep secs => Some (inr secs)
                  | _ => None
                  end) t.

(** The attempt numbers the debug output announces, in order. *)
Definition announced (t : list effect) : list nat :=
  omap (fun ev => match ev with Print (Connecting _ k) => Some k | _ => None end) t.

(** [n] connections with a delay of [secs] between one and the next. *)
Fixpoint retry_schedule (uri : string) (secs : float) (n : nat) : list (string + float) :=
  match n with
  | 0 => []
  | S k =>
      inl uri :: match k with
                 | 0 => []
                 | S _ => inr secs :: retry_schedule uri secs k
                 end
  end.

(** The names [client.py] publishes under. *)
Definition client_events : list string :=
  ["ready"; "rawmessage"; "earthquake"; "tsunami"; "eew"; "error"; "close"].

(** None of the names the client publishes under is taken by a method or a
    datum: each is free or holds a coroutine function, as after [__init__]
    and any number of registrations through [on]. *)
Definition plain_listeners (self : Client) : Prop :=
  forall event, event ∈ client_events ->
    attrs self !! event = None \/ exists h, attrs self !! event = Some (OCoroFn h).

(** What awaiting the listener registered under [event] yields; nothing is
    awaited where none is registered. *)
Definition listener_result (self : Client) (event : string) (args : list pyval)
    : pyresult unit :=
  match attrs self !! event with
  | Some (OCoroFn h) => co_body h args
  | _ => Ok tt
  end.

Definition listener_awaited (self : Client) (event : string) (args : list pyval)
    : list effect :=
  match attrs self !! event with
  | Some (OCoroFn h) => [Await h args]
  | _ => []
  end.

(** The event and the constructor a discriminant selects. *)
Definition kind_of (EarthquakeReports EEW : pyval -> pyresult pyval)
    (BasicData_init : pyval -> pyresult (list (string * pyval))) (code : pyval)
    : option (string * (pyval -> pyresult pyval)) :=
  if eq_int code 551 then Some ("earthquake", EarthquakeReports)
  else if eq_int code 552 then Some ("tsunami", Tsunami BasicData_init)
  else if eq_int code 556 then Some ("eew", EEW)
  else None.

(** The typed publication a frame calls for: that of the decoded payload
    when the frame has an envelope of a known kind that decodes, none
    otherwise. *)
Definition typed_publication (json_parse : string -> option pyval)
    (EarthquakeReports EEW : pyval -> pyresult pyval)
    (BasicData_init : pyval -> pyresult (list (string * pyval))) (message : string)
    : list (string * list pyval) :=
  match json_parse message with
  | None => []
  | Some data =>
      match subscript data "code" with
      | Raise _ => []
      | Ok code =>
          match kind_of EarthquakeReports EEW BasicData_init code with
          | None => []
          | Some (event, decode) =>
              match decode data with
              | Ok dataClass => [(event, [dataClass])]
              | Raise _ => []
              end
          end
      end
  end.

(** The envelope of a frame: the parsed text and its discriminant. *)
Definition envelope (json_parse : string -> option pyval) (message : string)
    : pyresult (pyval * pyval) :=
  (data <- json_loads json_parse message ;;
   code <- subscript data "code" ;;
   Ok (data, code))%expr.

(** ** Properties that compose along a run

    [I self self' t] relates the object before a step, the object after it
    and what the step did.  When [I] holds of the empty step and of two
    steps in sequence, it is enough to check it on the primitive steps. *)
Class Compositional {S : Type} (I : S -> S -> list effect -> Prop) : Prop := {
  comp_nil : forall s, I s s [];
  comp_app : forall s s1 s2 t1 t2, I s s1 t1 -> I s1 s2 t2 -> I s s2 (t1 ++ t2)
}.

Definition keeps {S A} (I : S -> S -> list effect -> Prop) (m : M S A) : Prop :=
  forall s, I s (self_of (m s)) (trace_of (m s)).

(** Effects of the emitter proper: awaited listeners and its two prints. *)
Definition local_effect (ev : effect) : bool :=
  match ev with
  | Await _ _ => true
  | Print (AddingListener _) => true
  | Print (NoListeners _) => true
  | _ => false
  end.


(** The invariants used below. *)

(** A step leaves the client as it found it. *)
Definition unchanged (s s' : Client) (t : list effect) : Prop :=
  plain_listeners s -> s' = s.

(** A step registers nothing and leaves the options alone. *)
Definition same_listeners (s s' : Client) (t : list effect) : Prop :=
  plain_listeners s -> attrs s' = attrs s /\ opt s' = opt s.

(** A step neither connects, nor sleeps, nor announces an attempt. *)
Definition quiet (s s' : Client) (t : list effect) : Prop :=
  schedule t = [] /\ announced t = [].

(** A step publishes under names in [P] only. *)
Definition publishes_only (P : string -> Prop) (s s' : Client) (t : list effect) : Prop :=
  Forall (fun p => P p.1) (publications t).

(** A client that is ready stays so as long as [close] is not published. *)
Definition ready_until_close (s s' : Client) (t : list effect) : Prop :=
  isReady s = true -> published "close" t = 0 -> isReady s' = true.

(** How an [except] clause that falls through to the retry ends. *)
Definition continue_or_raise (r : pyresult unit) : pyresult control :=
  match r with
  | Ok _ => Ok Continue
  | Raise e => Raise e
  end.

(** A client with one field replaced. *)
Definition with_isReady (b : bool) (s : Client) : Client :=
  {| attrs := attrs s; opt := opt s; ws := ws s; isReady := b |}.

Definition with_ws (websocket : nat) (s : Client) : Client :=
  {| attrs := attrs s; opt := opt s; ws := Some websocket; isReady := isReady s |}.

(** The names published while a session is open. *)
Definition session_event (name : string) : Prop :=
  name ∈ ["ready"; "rawmessage"; "earthquake"; "tsunami"; "eew"].

(** What [__debug_message__] prints on a client. *)
Definition debug_output (self : Client) (message : line) : list effect :=
  if isDebug (opt self) then [Print message] else [].

(** The double quote, for frame texts. *)
Definition dq : string := String "034"%char EmptyString.

(** ** Sample data

    Frames, stand-ins for the parts taken as parameters, and clients, to
    run the definitions on. *)

Definition quoted (s : string) : string := (dq ++ s ++ dq)%string.

(** [{"_id": "e1", "code": 551}] *)
Definition frame_earthquake : string :=
  ("{" ++ quoted "_id" ++ ": " ++ quoted "e1" ++ ", " ++ quoted "code" ++ ": 551}")%string.

(** [{"code": 999}] *)
Definition frame_unknown : string := ("{" ++ quoted "code" ++ ": 999}")%string.

(** [{"_id": "t1", "code": 552, "cancelled": true,
      "issue": {"source": "JMA", "time": "2024/01/01 00:00:00", "type": "Focus"}}] *)
Definition frame_tsunami : string :=
  ("{" ++ quoted "_id" ++ ": " ++ quoted "t1" ++ ", " ++ quoted "code" ++ ": 552, "
       ++ quoted "cancelled" ++ ": true, " ++ quoted "issue" ++ ": {"
       ++ quoted "source" ++ ": " ++ quoted "JMA" ++ ", "
       ++ quoted "time" ++ ": " ++ quoted "2024/01/01 00:00:00" ++ ", "
       ++ quoted "type" ++ ": " ++ quoted "Focus" ++ "}}")%string.

(** [{"code": 552, "cancelled": true}], the tsunami frame of the spec's
    end-to-end example. *)
Definition frame_tsunami_short : string :=
  ("{" ++ quoted "code" ++ ": 552, " ++ quoted "cancelled" ++ ": true}")%string.

(** A text cut off in the middle: [{"code": ] *)
Definition frame_malformed : string := ("{" ++ quoted "code" ++ ": ")%string.

(** [json.loads] on the sample frames; every other text is taken not to
    parse. *)
Definition sample_json_parse (text : string) : option pyval :=
  if String.eqb text frame_earthquake then
    Some (VDict [("_id", VStr "e1"); ("code", VInt 551)])
  else if String.eqb text frame_unknown then
    Some (VDict [("code", VInt 999)])
  else if String.eqb text frame_tsunami then
    Some (VDict [("_id", VStr "t1"); ("code", VInt 552); ("cancelled", VBool true);
                 ("issue", VDict [("source", VStr "JMA");
                                  ("time", VStr "2024/01/01 00:00:00");
                                  ("type", VStr "Focus")])])
  else if String.eqb text frame_tsunami_short then
    Some (VDict [("code", VInt 552); ("cancelled", VBool true)])
  else None.

(** Stand-ins for the constructors that are not among the sources. *)
Definition sample_EarthquakeReports (data : pyval) : pyresult pyval :=
  (_id <- subscript data "_id" ;; Ok (VInst "EarthquakeReports" [("_id", _id)]))%expr.

Definition sample_EEW (data : pyval) : pyresult pyval :=
  (_id <- subscript data "_id" ;; Ok (VInst "EEW" [("_id", _id)]))%expr.

Definition sample_BasicData_init (data : pyval) : pyresult (list (string * pyval)) :=
  (code <- subscript data "code" ;; Ok [("code", code)])%expr.

(** Listeners that return and listeners that raise. *)
Definition returning (name : string) : coro := Coro name (fun _ => Ok tt).

Definition raising (name : string) (e : exn) : coro := Coro name (fun _ => Raise e).

(** [client = Client()] and [@client.on async def ...] for each listener. *)
Definition client_with (isDebug : bool) (listeners : list coro) : Client :=
  fold_left (fun self h => self_of (on (OCoroFn h) self)) listeners
    (__init__ isDebug false).

Definition production_url : string := "wss://api.p2pquake.net/v2/ws".

Definition boom : exn := Exn RuntimeError "boom".

Definition refused : exn := Exn OSError "connection refused".

(** The instance [Tsunami] builds from [frame_tsunami]. *)
Definition sample_tsunami : pyval :=
  VInst "Tsunami"
    [("code", VInt 552); ("_id", VStr "t1"); ("cancelled", VBool true);
     ("issue", VInst "TsunamiIssue"
                 [("source", VStr "JMA"); ("time", VStr "2024/01/01 00:00:00");
                  ("_type", VStr "Focus")]);
     ("areas", VNone)].

(** The sample instantiation of the client's steps. *)
Definition sample_on_message : string -> M Client unit :=
  __on_message sample_json_parse sample_EarthquakeReports sample_EEW sample_BasicData_init.

Definition sample_attempt : string -> nat -> connection -> M Client control :=
  attempt sample_json_parse sample_EarthquakeReports sample_EEW sample_BasicData_init.

Definition sample_loop_body
    : option Z -> float -> string -> connection -> nat -> M Client (control * nat) :=
  loop_body sample_json_parse sample_EarthquakeReports sample_EEW sample_BasicData_init.

Definition sample_start_async
    : nat -> option Z -> float -> (nat -> connection) -> M Client (option nat) :=
  _start_async sample_json_parse sample_EarthquakeReports sample_EEW sample_BasicData_init.
(** ** More vocabulary for traces and invariants *)

(** The frame text of a publication under [rawmessage]. *)
Definition raw_message_of (p : string * list pyval) : option string :=
  match p with
  | ("rawmessage", [VStr message]) => Some message
  | _ => None
  end.

(** The frame texts published under [rawmessage], in order. *)
Definition raw_messages (t : list effect) : list string :=
  omap raw_message_of (publications t).

(** What one frame publishes when every listener returns. *)
Definition frame_publications (json_parse : string -> option pyval)
    (EarthquakeReports EEW : pyval -> pyresult pyval)
    (BasicData_init : pyval -> pyresult (list (string * pyval))) (message : string)
    : list (string * list pyval) :=
  ("rawmessage", [VStr message]) ::
  typed_publication json_parse EarthquakeReports EEW BasicData_init message.

(** [k] rounds of a connection followed by a sleep. *)
Fixpoint rounds (uri : string) (secs : float) (k : nat) : list (string + float) :=
  match k with
  | 0 => []
  | S k => inl uri :: inr secs :: rounds uri secs k
  end.

(** A step leaves [self.ws] alone. *)
Definition same_ws (s s' : Client) (t : list effect) : Prop := ws s' = ws s.

Definition is_print (ev : effect) : bool :=
  match ev with
  | Print _ => true
  | _ => false
  end.

(** With debug output off, a step of a client with plain listeners prints
    nothing, and registers nothing and leaves the options alone. *)
Definition silent (s s' : Client) (t : list effect) : Prop :=
  plain_listeners s -> isDebug (opt s) = false ->
  attrs s' = attrs s /\ opt s' = opt s /\ forallb (fun ev => negb (is_print ev)) t = true.

(** The value of a key in a dict, [default] when the key is missing or the
    value is no dict. *)
Definition value_or (default : pyval) (v : pyval) (k : string) : pyval :=
  match v with
  | VDict kvs => match assoc k kvs with Some x => x | None => default end
  | _ => default
  end.

(** A cancellation, which is no [Exception]. *)
Definition cancelled : exn := Exn CancelledError "".

Section Keeps.
Context {S : Type} (I : S -> S -> list effect -> Prop) `{!Compositional I}.

Lemma keeps_ret {A} (a : A) : keeps I (ret a).
Proof. intros s. apply comp_nil. Qed.

Lemma keeps_raise {A} (e : exn) : keeps I (@raise S A e).
Proof. intros s. apply comp_nil. Qed.

Lemma keeps_eval {A} (r : pyresult A) : keeps I (@eval S A r).
Proof. intros s. apply comp_nil. Qed.

Lemma keeps_bind {A B} (m : M S A) (k : A -> M S B) :
  keeps I m -> (forall a, keeps I (k a)) -> keeps I (bind m k).
Proof.
  intros Hm Hk s. specialize (Hm s). unfold bind, self_of, trace_of in *.
  destruct (m s) as [[[a|e] s1] t1]; simpl in *; [|exact Hm].
  specialize (Hk a s1). unfold self_of, trace_of in Hk.
  destruct (k a s1) as [[r s2] t2]; simpl in *.
  eapply comp_app; eassumption.
Qed.

Lemma keeps_dispatch {A} (clauses : list ((exn -> bool) * (exn -> M S A))) (e : exn) :
  Forall (fun c => forall e, keeps I (c.2 e)) clauses -> keeps I (dispatch clauses e).
Proof.
  induction 1 as [|[catches handler] rest Hc _ IH]; simpl.
  - apply keeps_raise.
  - destruct (catches e); [apply Hc|apply IH].
Qed.

Lemma keeps_try_excepts {A} (body : M S A)
    (clauses : list ((exn -> bool) * (exn -> M S A))) :
  keeps I body -> Forall (fun c => forall e, keeps I (c.2 e)) clauses ->
  keeps I (try_excepts body clauses).
Proof.
  intros Hb Hc s. specialize (Hb s). unfold try_excepts, self_of, trace_of in *.
  destruct (body s) as [[[a|e] s1] t1]; simpl in *; [exact Hb|].
  pose proof (keeps_dispatch clauses e Hc s1) as Hd. unfold self_of, trace_of in Hd.
  destruct (dispatch clauses e s1) as [[r s2] t2]; simpl in *.
  eapply comp_app; eassumption.
Qed.

Lemma keeps_if {A} (b : bool) (m1 m2 : M S A) :
  keeps I m1 -> keeps I m2 -> keeps I (if b then m1 else m2).
Proof. destruct b; auto. Qed.

End Keeps.

(** *** Traces *)

Lemma publications_app (t1 t2 : list effect) :
  publications (t1 ++ t2) = publications t1 ++ publications t2.
Proof. apply omap_app. Qed.

Lemma published_app (event : string) (t1 t2 : list effect) :
  published event (t1 ++ t2) = published event t1 + published event t2.
Proof. unfold published. rewrite publications_app, filter_app. apply length_app. Qed.

Lemma schedule_app (t1 t2 : list effect) :
  schedule (t1 ++ t2) = schedule t1 ++ schedule t2.
Proof. apply omap_app. Qed.

Lemma announced_app (t1 t2 : list effect) :
  announced (t1 ++ t2) = announced t1 ++ announced t2.
Proof. apply omap_app. Qed.

Lemma local_publications (t : list effect) :
  forallb local_effect t = true -> publications t = [].
Proof.
  induction t as [|ev t IH]; [reflexivity|].
  simpl. intros [Hev Ht]%andb_prop.
  destruct ev as [[]| | | |]; try discriminate; exact (IH Ht).
Qed.

Lemma local_schedule (t : list effect) :
  forallb local_effect t = true -> schedule t = [].
Proof.
  induction t as [|ev t IH]; [reflexivity|].
  simpl. intros [Hev Ht]%andb_prop.
  destruct ev as [[]| | | |]; try discriminate; exact (IH Ht).
Qed.

Lemma local_announced (t : list effect) :
  forallb local_effect t = true -> announced t = [].
Proof.
  induction t as [|ev t IH]; [reflexivity|].
  simpl. intros [Hev Ht]%andb_prop.
  destruct ev as [[]| | | |]; try discriminate; exact (IH Ht).
Qed.

(** Whatever is found under the name, [emit] itself only awaits and
    prints its own line. *)
Lemma emit_local (event : string) (args : list pyval) (self : object) :
  forallb local_effect (trace_of (EventEmitter.emit event args self)) = true.
Proof.
  revert event. induction args as [|a rest IH]; intros event; simpl.
  - destruct (self !! event) as [[v|h|[]]|]; simpl; try reflexivity.
    destruct (truthy v); reflexivity.
  - destruct (self !! event) as [[v|h|[]]|]; simpl; try reflexivity.
    + destruct (truthy v); reflexivity.
    + destruct rest; reflexivity.
    + destruct a; try reflexivity. apply IH.
Qed.
(** ** The emitter *)

Lemma on_coroutine (self : object) (h : coro) :
  EventEmitter.on (OCoroFn h) self =
  (Ok (OCoroFn h), <[co_name h := OCoroFn h]> self, [Print (AddingListener (co_name h))]).
Proof. reflexivity. Qed.

Lemma emit_coroutine (self : object) (event : string) (h : coro) (args : list pyval) :
  self !! event = Some (OCoroFn h) ->
  EventEmitter.emit event args self = (co_body h args, self, [Await h args]).
Proof. intros Hl. destruct args; simpl; rewrite Hl; reflexivity. Qed.

Lemma emit_unbound (self : object) (event : string) (args : list pyval) :
  self !! event = None ->
  EventEmitter.emit event args self = (Ok tt, self, []).
Proof. intros Hl. destruct args; simpl; rewrite Hl; reflexivity. Qed.


(** The claim of C7 fails for a name that is an attribute of the emitter
    without being a listener: no listener is registered on a fresh emitter,
    yet emitting [on] calls the method of that name and raises, and emitting
    [_listeners] prints. *)
Lemma emit_member_name_not_silent :
  (forall name h, EventEmitter.init !! name <> Some (OCoroFn h)) /\
  EventEmitter.emit "on" [] EventEmitter.init =
    (Raise (Exn TypeError "on() missing 1 required positional argument: 'f'"),
     EventEmitter.init, []) /\
  EventEmitter.emit "_listeners" [] EventEmitter.init =
    (Ok tt, EventEmitter.init, [Print (NoListeners "_listeners")]).
Proof.
  split; [|split; reflexivity].
  intros name h. unfold EventEmitter.init.
  rewrite !lookup_insert. repeat case_decide; discriminate.
Qed.

(** C7, amended: emitting a name that is no attribute of the emitter does
    nothing: it returns, the object is unchanged, nothing is awaited or
    printed. *)
Theorem emit_unbound_noop (self : object) (event : string) (args : list pyval) :
  self !! event = None ->
  EventEmitter.emit event args self = (Ok tt, self, []).
Proof. apply emit_unbound. Qed.

Lemma emit_unbound_noop_witness :
  EventEmitter.init !! "ready" = None /\
  EventEmitter.emit "ready" [] EventEmitter.init = (Ok tt, EventEmitter.init, []).
Proof.
  split; [reflexivity|].
  apply (emit_unbound_noop EventEmitter.init "ready" []). reflexivity.
Defined.


(** ** The client: one frame *)

#[local] Instance unchanged_compositional : Compositional unchanged.
Proof.
  split; unfold unchanged.
  - reflexivity.
  - intros s s1 s2 t1 t2 H1 H2 Hs. rewrite (H2 ltac:(rewrite (H1 Hs); exact Hs)). auto.
Qed.

#[local] Instance same_listeners_compositional : Compositional same_listeners.
Proof.
  split; unfold same_listeners.
  - auto.
  - intros s s1 s2 t1 t2 H1 H2 Hs. destruct (H1 Hs) as [Ha Ho].
    assert (plain_listeners s1) as Hs1.
    { intros ev Hev. rewrite Ha. apply Hs, Hev. }
    destruct (H2 Hs1) as [Ha2 Ho2]. split; congruence.
Qed.

#[local] Instance quiet_compositional : Compositional quiet.
Proof.
  split; unfold quiet.
  - auto.
  - intros s s1 s2 t1 t2 [H1 H1'] [H2 H2'].
    rewrite schedule_app, announced_app, H1, H1', H2, H2'. auto.
Qed.

#[local] Instance publishes_only_compositional (P : string -> Prop) :
  Compositional (publishes_only P).
Proof.
  split; unfold publishes_only.
  - intros _. constructor.
  - intros s s1 s2 t1 t2 H1 H2. rewrite publications_app. apply Forall_app. auto.
Qed.

#[local] Instance ready_until_close_compositional : Compositional ready_until_close.
Proof.
  split; unfold ready_until_close.
  - auto.
  - intros s s1 s2 t1 t2 H1 H2 Hr Hp. rewrite published_app in Hp.
    apply H2; [apply H1|]; [assumption|lia|lia].
Qed.

Lemma unchanged_same_listeners {A} (m : M Client A) :
  keeps unchanged m -> keeps same_listeners m.
Proof. intros H s Hs. rewrite (H s Hs). auto. Qed.

Ltac in_events := unfold client_events; rewrite !elem_of_cons; tauto.

(** *** [emit], [__debug_message__] and the setters *)

Lemma emit_unfold (event : string) (args : list pyval) (self : Client) :
  emit event args self =
  let '(r, o, t) := EventEmitter.emit event args (attrs self) in
  (r, {| attrs := o; opt := opt self; ws := ws self; isReady := isReady self |},
   Publish event args :: t).
Proof.
  unfold emit, bind, tell, inherited.
  destruct (EventEmitter.emit event args (attrs self)) as [[r o] t]. reflexivity.
Qed.

Lemma emit_trace (event : string) (args : list pyval) (self : Client) :
  exists t, trace_of (emit event args self) = Publish event args :: t /\
            forallb local_effect t = true.
Proof.
  rewrite emit_unfold. pose proof (emit_local event args (attrs self)) as Hl.
  destruct (EventEmitter.emit event args (attrs self)) as [[r o] t].
  exists t. split; [reflexivity|exact Hl].
Qed.

Lemma emit_publications (event : string) (args : list pyval) (self : Client) :
  publications (trace_of (emit event args self)) = [(event, args)].
Proof.
  destruct (emit_trace event args self) as (t & -> & Hl).
  simpl. rewrite (local_publications t Hl). reflexivity.
Qed.

(** Under a name that is free or holds a coroutine function, [emit] awaits
    the listener, if any, and leaves the client alone. *)
Lemma emit_plain (event : string) (args : list pyval) (self : Client) :
  plain_listeners self -> event ∈ client_events ->
  emit event args self =
  (listener_result self event args, self,
   Publish event args :: listener_awaited self event args).
Proof.
  intros Hs Hev. rewrite emit_unfold.
  unfold listener_result, listener_awaited.
  destruct (Hs event Hev) as [Hn|[h Hh]].
  - rewrite (emit_unbound _ _ _ Hn), Hn. destruct self; reflexivity.
  - rewrite (emit_coroutine _ _ h _ Hh), Hh. destruct self; reflexivity.
Qed.

Lemma debug_message_unfold (message : line) (self : Client) :
  __debug_message__ message self = (Ok tt, self, debug_output self message).
Proof. unfold __debug_message__, debug_output. destruct (isDebug (opt self)); reflexivity. Qed.

Lemma keeps_emit_unchanged (event : string) (args : list pyval) :
  event ∈ client_events -> keeps unchanged (emit event args).
Proof. intros Hev s Hs. rewrite (emit_plain _ _ _ Hs Hev). reflexivity. Qed.

Lemma keeps_emit_quiet (event : string) (args : list pyval) : keeps quiet (emit event args).
Proof.
  intros s. destruct (emit_trace event args s) as (t & -> & Hl).
  split; simpl; [apply local_schedule|apply local_announced]; exact Hl.
Qed.

Lemma keeps_emit_publishes (P : string -> Prop) (event : string) (args : list pyval) :
  P event -> keeps (publishes_only P) (emit event args).
Proof.
  intros HP s. unfold publishes_only. rewrite emit_publications.
  constructor; [exact HP|constructor].
Qed.

Lemma keeps_emit_ready (event : string) (args : list pyval) :
  keeps ready_until_close (emit event args).
Proof.
  intros s Hr _. rewrite emit_unfold.
  destruct (EventEmitter.emit event args (attrs s)) as [[r o] t]. exact Hr.
Qed.

Lemma keeps_debug_unchanged (l : line) : keeps unchanged (__debug_message__ l).
Proof. intros s _. rewrite debug_message_unfold. reflexivity. Qed.

Lemma keeps_debug_publishes (P : string -> Prop) (l : line) :
  keeps (publishes_only P) (__debug_message__ l).
Proof.
  intros s. rewrite debug_message_unfold. unfold publishes_only, trace_of, debug_output.
  simpl. destruct (isDebug (opt s)); constructor.
Qed.

Lemma keeps_debug_ready (l : line) : keeps ready_until_close (__debug_message__ l).
Proof. intros s Hr _. rewrite debug_message_unfold. exact Hr. Qed.

(** The debug lines met inside a session announce no attempt. *)
Lemma keeps_debug_quiet (l : line) :
  (forall uri k, l <> Connecting uri k) -> keeps quiet (__debug_message__ l).
Proof.
  intros Hl s. rewrite debug_message_unfold. unfold quiet, trace_of, debug_output. simpl.
  destruct (isDebug (opt s)); [|auto].
  destruct l; auto. exfalso. eapply Hl. reflexivity.
Qed.

(** *** Composite steps keep what their primitive steps keep *)

Ltac keep_bind := apply keeps_bind; [exact _| |].
Ltac keep_eval := apply keeps_eval; exact _.
Ltac keep_ret := apply keeps_ret; exact _.
Ltac keep_raise := apply keeps_raise; exact _.
Ltac keep_if := apply keeps_if.
Ltac keep_try := apply keeps_try_excepts; [exact _| |].

Section Composite.
Variable json_parse : string -> option pyval.
Variables EarthquakeReports EEW : pyval -> pyresult pyval.
Variable BasicData_init : pyval -> pyresult (list (string * pyval)).

Variable I : Client -> Client -> list effect -> Prop.
Context `{!Compositional I}.

(** The frame handler emits under four names and writes debug lines. *)
Hypothesis I_debug : forall l, (forall uri k, l <> Connecting uri k) ->
                               keeps I (__debug_message__ l).
Hypothesis I_raw : forall args, keeps I (emit "rawmessage" args).
Hypothesis I_earthquake : forall args, keeps I (emit "earthquake" args).
Hypothesis I_tsunami : forall args, keeps I (emit "tsunami" args).
Hypothesis I_eew : forall args, keeps I (emit "eew" args).

Lemma keeps_cache_set (dataClass : pyval) : keeps I (cache_set dataClass).
Proof. intros s. apply comp_nil. Qed.

Lemma keeps_handle (data : pyval) (code : Z) (decode : pyval -> pyresult pyval)
    (event : string) :
  (forall args, keeps I (emit event args)) -> keeps I (handle data code decode event).
Proof.
  intros He. unfold handle.
  keep_bind; [keep_eval|]. intros c.
  keep_if; [|keep_ret].
  keep_bind; [keep_eval|]. intros d.
  keep_bind; [apply He|]. intros _. apply keeps_cache_set.
Qed.

Lemma keeps_decode_and_emit (message : string) :
  keeps I (decode_and_emit json_parse EarthquakeReports EEW BasicData_init message).
Proof.
  unfold decode_and_emit.
  keep_bind; [keep_eval|]. intros data.
  keep_bind; [keep_eval|]. intros c.
  keep_bind; [apply I_debug; discriminate|]. intros _.
  keep_bind; [apply keeps_handle, I_earthquake|]. intros _.
  keep_bind; [apply keeps_handle, I_tsunami|]. intros _.
  apply keeps_handle, I_eew.
Qed.

Lemma keeps_on_message (message : string) :
  keeps I (__on_message json_parse EarthquakeReports EEW BasicData_init message).
Proof.
  unfold __on_message.
  keep_bind; [apply I_raw|]. intros _.
  keep_try; [apply keeps_decode_and_emit|].
  repeat constructor. simpl. intros e.
  keep_bind; [apply I_debug; discriminate|]. intros _.
  apply I_debug; discriminate.
Qed.

Lemma keeps_receive (frames : list string) (fin : stream_end) :
  keeps I (receive json_parse EarthquakeReports EEW BasicData_init frames fin).
Proof.
  induction frames as [|message rest IH]; simpl.
  - destruct fin; [keep_ret|keep_raise].
  - keep_bind; [apply keeps_on_message|]. intros _. exact IH.
Qed.

End Composite.

Section Message.
Variable json_parse : string -> option pyval.
Variables EarthquakeReports EEW : pyval -> pyresult pyval.
Variable BasicData_init : pyval -> pyresult (list (string * pyval)).

Abbreviation decode_and_emit' :=
  (decode_and_emit json_parse EarthquakeReports EEW BasicData_init).
Abbreviation on_message := (__on_message json_parse EarthquakeReports EEW BasicData_init).
Abbreviation kind := (kind_of EarthquakeReports EEW BasicData_init).

Lemma handle_skip data c code decode event (s : Client) :
  subscript data "code" = Ok c -> eq_int c code = false ->
  handle data code decode event s = (Ok tt, s, []).
Proof. intros Hc Hn. unfold handle, bind, eval. rewrite Hc. simpl. rewrite Hn. reflexivity. Qed.

Lemma handle_hit data c code decode event (s : Client) :
  subscript data "code" = Ok c -> eq_int c code = true ->
  handle data code decode event s =
  match decode data with
  | Raise e => (Raise e, s, [])
  | Ok dataClass =>
      let '(r, s1, t1) := emit event [dataClass] s in
      (match r with Ok _ => Raise (missing_cache s1) | Raise e => Raise e end, s1, t1)
  end.
Proof.
  intros Hc Hy. unfold handle, bind, eval. rewrite Hc. simpl. rewrite Hy.
  destruct (decode data) as [dataClass|e]; simpl; [|reflexivity].
  destruct (emit event [dataClass] s) as [[[[]|e] s1] t1]; simpl; [|reflexivity].
  rewrite app_nil_r. reflexivity.
Qed.

(** What the body of the [try] in [__on_message] comes to: nothing for a
    text without envelope or of an unknown kind, otherwise the decoding,
    the publication and the failing cache write of the first kind that
    matches. *)
Lemma decode_and_emit_unfold message (s : Client) :
  decode_and_emit' message s =
  match envelope json_parse message with
  | Raise e => (Raise e, s, [])
  | Ok (data, c) =>
      match kind c with
      | None => (Ok tt, s, debug_output s (ReceivedData c))
      | Some (event, decode) =>
          match decode data with
          | Raise e => (Raise e, s, debug_output s (ReceivedData c))
          | Ok dataClass =>
              let '(r, s1, t1) := emit event [dataClass] s in
              (match r with Ok _ => Raise (missing_cache s1) | Raise e => Raise e end,
               s1, debug_output s (ReceivedData c) ++ t1)
          end
      end
  end.
Proof.
  unfold decode_and_emit, envelope, and_then.
  unfold bind at 1. unfold eval at 1.
  destruct (json_loads json_parse message) as [data|e]; [|reflexivity].
  unfold bind at 1. unfold eval at 1.
  destruct (subscript data "code") as [c|e] eqn:Hc; [|reflexivity].
  unfold bind at 1. rewrite debug_message_unfold.
  unfold kind_of.
  destruct (eq_int c 551) eqn:H1.
  { unfold bind at 1. rewrite (handle_hit _ _ _ _ _ _ Hc H1).
    destruct (EarthquakeReports data) as [d|e]; [|rewrite app_nil_r; reflexivity].
    destruct (emit "earthquake" [d] s) as [[[[]|e] s1] t1]; reflexivity. }
  unfold bind at 1. rewrite (handle_skip _ _ _ _ _ _ Hc H1).
  destruct (eq_int c 552) eqn:H2.
  { unfold bind at 1. rewrite (handle_hit _ _ _ _ _ _ Hc H2).
    destruct (Tsunami BasicData_init data) as [d|e]; [|rewrite app_nil_r; reflexivity].
    destruct (emit "tsunami" [d] s) as [[[[]|e] s1] t1]; reflexivity. }
  unfold bind at 1. rewrite (handle_skip _ _ _ _ _ _ Hc H2).
  destruct (eq_int c 556) eqn:H3.
  { rewrite (handle_hit _ _ _ _ _ _ Hc H3).
    destruct (EEW data) as [d|e]; [|rewrite app_nil_r; reflexivity].
    destruct (emit "eew" [d] s) as [[[[]|e] s1] t1]; reflexivity. }
  rewrite (handle_skip _ _ _ _ _ _ Hc H3). rewrite app_nil_r. reflexivity.
Qed.

Lemma on_message_unfold message (s : Client) :
  on_message message s =
  let '(r0, s0, t0) := emit "rawmessage" [VStr message] s in
  match r0 with
  | Raise e => (Raise e, s0, t0)
  | Ok _ =>
      let '(r1, s1, t1) := decode_and_emit' message s0 in
      match r1 with
      | Ok _ => (Ok tt, s1, t0 ++ t1)
      | Raise e =>
          if is_Exception e
          then (Ok tt, s1,
                t0 ++ t1 ++ debug_output s1 JsonParsingError ++ debug_output s1 (Value e))
          else (Raise e, s1, t0 ++ t1 ++ [])
      end
  end.
Proof.
  unfold __on_message, bind at 1.
  destruct (emit "rawmessage" [VStr message] s) as [[[[]|e] s0] t0]; [|reflexivity].
  unfold try_excepts.
  destruct (decode_and_emit' message s0) as [[[[]|e] s1] t1]; [reflexivity|].
  simpl. destruct (is_Exception e); [|reflexivity].
  unfold bind. rewrite !debug_message_unfold. reflexivity.
Qed.

(** An envelope that cannot be read fails with an exception of class
    [Exception]. *)
Lemma envelope_raise message e :
  envelope json_parse message = Raise e -> is_Exception e = true.
Proof.
  unfold envelope, json_loads, and_then.
  destruct (json_parse message) as [data|]; [|intros [= <-]; reflexivity].
  unfold subscript. destruct data; try (intros [= <-]; reflexivity).
  destruct (assoc "code" kvs); intros [= <-]. reflexivity.
Qed.

Lemma missing_cache_class (s : Client) : exn_cls (missing_cache s) = AttributeError.
Proof. unfold missing_cache. destruct (attrs s !! "cache"); reflexivity. Qed.

Lemma kind_events c event decode :
  kind c = Some (event, decode) -> event ∈ client_events.
Proof.
  unfold kind_of.
  destruct (eq_int c 551); [intros [= <- <-]; in_events|].
  destruct (eq_int c 552); [intros [= <- <-]; in_events|].
  destruct (eq_int c 556); [intros [= <- <-]; in_events|discriminate].
Qed.

Lemma debug_output_publications (s : Client) (l : line) :
  publications (debug_output s l) = [].
Proof. unfold debug_output. destruct (isDebug (opt s)); reflexivity. Qed.

Lemma typed_publication_envelope message :
  typed_publication json_parse EarthquakeReports EEW BasicData_init message =
  match envelope json_parse message with
  | Raise _ => []
  | Ok (data, c) =>
      match kind c with
      | None => []
      | Some (event, decode) =>
          match decode data with
          | Ok dataClass => [(event, [dataClass])]
          | Raise _ => []
          end
      end
  end.
Proof.
  unfold typed_publication, envelope, json_loads, and_then.
  destruct (json_parse message) as [data|]; [|reflexivity].
  destruct (subscript data "code"); reflexivity.
Qed.

(** The publications of the frame handler: the raw one and, if that
    returns, the typed one the frame calls for. *)
Lemma on_message_publications message (s : Client) :
  publications (trace_of (on_message message s)) =
  ("rawmessage", [VStr message]) ::
  match result_of (emit "rawmessage" [VStr message] s) with
  | Ok _ => typed_publication json_parse EarthquakeReports EEW BasicData_init message
  | Raise _ => []
  end.
Proof.
  rewrite typed_publication_envelope, on_message_unfold.
  pose proof (emit_publications "rawmessage" [VStr message] s) as Hraw.
  destruct (emit "rawmessage" [VStr message] s) as [[r0 s0] t0].
  unfold trace_of, result_of in *. simpl in Hraw. simpl.
  destruct r0 as [[]|e0]; [|exact Hraw].
  rewrite decode_and_emit_unfold.
  destruct (envelope json_parse message) as [[data c]|e].
  - destruct (kind c) as [[event decode]|].
    + destruct (decode data) as [dataClass|e].
      * pose proof (emit_publications event [dataClass] s0) as Hty.
        destruct (emit event [dataClass] s0) as [[r1 s1] t1].
        unfold trace_of in Hty. simpl in Hty.
        destruct r1 as [[]|e]; [destruct (is_Exception (missing_cache s1))
                               |destruct (is_Exception e)];
          simpl; rewrite ?publications_app, ?debug_output_publications, Hraw, Hty;
          reflexivity.
      * destruct (is_Exception e); simpl;
          rewrite ?publications_app, ?debug_output_publications, Hraw; reflexivity.
    + simpl. rewrite ?publications_app, ?debug_output_publications, Hraw. reflexivity.
  - destruct (is_Exception e); simpl;
      rewrite ?publications_app, ?debug_output_publications, Hraw; reflexivity.
Qed.

Lemma typed_publication_at_most_one message :
  length (typed_publication json_parse EarthquakeReports EEW BasicData_init message) <= 1.
Proof.
  rewrite typed_publication_envelope.
  destruct (envelope json_parse message) as [[data c]|]; [|simpl; lia].
  destruct (kind c) as [[event decode]|]; [|simpl; lia].
  destruct (decode data); simpl; lia.
Qed.


Lemma on_message_unchanged message : keeps unchanged (on_message message).
Proof.
  apply keeps_on_message; try exact _.
  - intros l _. apply keeps_debug_unchanged.
  - intros args. apply keeps_emit_unchanged. in_events.
  - intros args. apply keeps_emit_unchanged. in_events.
  - intros args. apply keeps_emit_unchanged. in_events.
  - intros args. apply keeps_emit_unchanged. in_events.
Qed.



End Message.

(** ** The client: sessions and the retry loop *)

Lemma on_ready_unfold (s : Client) :
  __on_ready s =
  let '(r, s', t) := emit "ready" [] (with_isReady true s) in
  (r, s', debug_output s (ConnectedTo (__get_ws_url__ s)) ++ t).
Proof.
  unfold __on_ready, bind, set_isReady. rewrite debug_message_unfold. simpl.
  destruct (emit "ready" [] _) as [[r s'] t]. reflexivity.
Qed.

Lemma on_close_unfold (s : Client) :
  __on_close s =
  let '(r, s', t) := emit "close" [] (with_isReady false s) in
  (r, s', debug_output s (DisconnectedFrom (__get_ws_url__ s)) ++ t).
Proof.
  unfold __on_close, bind, set_isReady. rewrite debug_message_unfold. simpl.
  destruct (emit "close" [] _) as [[r s'] t]. reflexivity.
Qed.

Lemma on_error_unfold (error : exn) (s : Client) :
  __on_error error s =
  let '(r, s', t) := emit "error" [VExc error] s in
  (r, s', debug_output s (ErrorAt (__get_ws_url__ s)) ++ debug_output s (Value error) ++ t).
Proof.
  unfold __on_error, bind. rewrite !debug_message_unfold. simpl.
  destruct (emit "error" [VExc error] s) as [[r s'] t]. reflexivity.
Qed.

Lemma keeps_set_ws_same (websocket : nat) : keeps same_listeners (set_ws websocket).
Proof. intros s _. auto. Qed.

Lemma keeps_set_isReady_same (b : bool) : keeps same_listeners (set_isReady b).
Proof. intros s _. auto. Qed.

Lemma keeps_emit_same (event : string) (args : list pyval) :
  event ∈ client_events -> keeps same_listeners (emit event args).
Proof. intros Hev. apply unchanged_same_listeners, keeps_emit_unchanged, Hev. Qed.

Lemma keeps_debug_same (l : line) : keeps same_listeners (__debug_message__ l).
Proof. apply unchanged_same_listeners, keeps_debug_unchanged. Qed.

Lemma keeps_tell_same (ev : effect) : keeps same_listeners (tell ev).
Proof. intros s _. auto. Qed.

Lemma published_emit (name event : string) (args : list pyval) (s : Client) :
  published name (trace_of (emit event args s)) = if decide (event = name) then 1 else 0.
Proof.
  unfold published. rewrite emit_publications. simpl.
  case_decide as H.
  - rewrite filter_cons_True by exact H. reflexivity.
  - rewrite filter_cons_False by exact H. reflexivity.
Qed.

Lemma published_debug_output (name : string) (s : Client) (l : line) :
  published name (debug_output s l) = 0.
Proof. unfold published. rewrite debug_output_publications. reflexivity. Qed.

Lemma published_on_close (s : Client) : published "close" (trace_of (__on_close s)) = 1.
Proof.
  rewrite on_close_unfold.
  pose proof (published_emit "close" "close" [] (with_isReady false s)) as He.
  destruct (emit "close" [] (with_isReady false s)) as [[r s'] t].
  unfold trace_of in *. simpl in *.
  rewrite published_app, published_debug_output, He. reflexivity.
Qed.

Lemma keeps_on_close_ready : keeps ready_until_close __on_close.
Proof. intros s _ Hp. rewrite published_on_close in Hp. discriminate. Qed.

(** *** Sessions keep what their steps keep *)

Section Sessions.
Variable json_parse : string -> option pyval.
Variables EarthquakeReports EEW : pyval -> pyresult pyval.
Variable BasicData_init : pyval -> pyresult (list (string * pyval)).

Variable I : Client -> Client -> list effect -> Prop.
Context `{!Compositional I}.

Hypothesis I_debug : forall l, (forall uri k, l <> Connecting uri k) ->
                               keeps I (__debug_message__ l).
Hypothesis I_ready : forall args, keeps I (emit "ready" args).
Hypothesis I_raw : forall args, keeps I (emit "rawmessage" args).
Hypothesis I_earthquake : forall args, keeps I (emit "earthquake" args).
Hypothesis I_tsunami : forall args, keeps I (emit "tsunami" args).
Hypothesis I_eew : forall args, keeps I (emit "eew" args).
Hypothesis I_set_ws : forall websocket, keeps I (set_ws websocket).
Hypothesis I_set_ready : keeps I (set_isReady true).

Lemma keeps_on_ready : keeps I __on_ready.
Proof.
  unfold __on_ready.
  keep_bind; [apply I_set_ready|]. intros _.
  keep_bind; [|intros _; apply I_ready].
  intros s. apply I_debug. discriminate.
Qed.

Lemma keeps_handshake_and_body (websocket : nat) (conn : connection) :
  keeps I (handshake_and_body json_parse EarthquakeReports EEW BasicData_init
             websocket conn).
Proof.
  destruct conn as [e|frames fin]; simpl; [keep_raise|].
  keep_bind; [apply I_set_ws|]. intros _.
  keep_bind; [apply keeps_on_ready|]. intros _.
  apply keeps_receive; assumption.
Qed.

(** From here on the steps that end a session and the loop around it. *)
Hypothesis I_close : keeps I __on_close.
Hypothesis I_error : forall e, keeps I (__on_error e).
Hypothesis I_connect : forall uri, keeps I (tell (Connect uri)).
Hypothesis I_sleep : forall secs, keeps I (tell (Sleep secs)).
Hypothesis I_announce : forall uri k, keeps I (__debug_message__ (Connecting uri k)).

Lemma keeps_except_clauses :
  Forall (fun c : (exn -> bool) * (exn -> M Client control) => forall e, keeps I (c.2 e))
    except_clauses.
Proof.
  repeat constructor; simpl; intros e.
  - keep_bind; [apply I_debug; discriminate|]. intros _.
    keep_bind; [apply I_close|]. intros _. keep_ret.
  - keep_bind; [apply I_debug; discriminate|]. intros _.
    keep_bind; [apply I_error|]. intros _. keep_ret.
Qed.

Lemma keeps_attempt (uri : string) (websocket : nat) (conn : connection) :
  keeps I (attempt json_parse EarthquakeReports EEW BasicData_init uri websocket conn).
Proof.
  unfold attempt. keep_try; [|apply keeps_except_clauses].
  keep_bind.
  - unfold session. keep_bind; [apply I_connect|]. intros _.
    apply keeps_handshake_and_body.
  - intros _. keep_bind; [apply I_debug; discriminate|]. intros _.
    keep_bind; [apply I_close|]. intros _. keep_ret.
Qed.

Lemma keeps_loop_body max_retries retry_interval uri conn retries :
  keeps I (loop_body json_parse EarthquakeReports EEW BasicData_init
             max_retries retry_interval uri conn retries).
Proof.
  unfold loop_body.
  keep_bind; [apply I_announce|]. intros _.
  keep_bind; [apply keeps_attempt|]. intros [|]; [keep_ret|].
  keep_if.
  - keep_bind; [apply I_debug; discriminate|]. intros _. keep_ret.
  - keep_bind; [apply I_debug; discriminate|]. intros _.
    keep_bind; [apply I_sleep|]. intros _. keep_ret.
Qed.

Lemma keeps_while_true fuel max_retries retry_interval uri net retries :
  keeps I (while_true json_parse EarthquakeReports EEW BasicData_init
             fuel max_retries retry_interval uri net retries).
Proof.
  revert retries. induction fuel as [|fuel IH]; intros retries; simpl; [keep_ret|].
  keep_bind; [apply keeps_loop_body|]. intros [[|] retries']; [keep_ret|apply IH].
Qed.

End Sessions.

Section Supervisor.
Variable json_parse : string -> option pyval.
Variables EarthquakeReports EEW : pyval -> pyresult pyval.
Variable BasicData_init : pyval -> pyresult (list (string * pyval)).

Abbreviation on_message := (__on_message json_parse EarthquakeReports EEW BasicData_init).
Abbreviation receive' := (receive json_parse EarthquakeReports EEW BasicData_init).
Abbreviation handshake_and_body' :=
  (handshake_and_body json_parse EarthquakeReports EEW BasicData_init).
Abbreviation session' := (session json_parse EarthquakeReports EEW BasicData_init).
Abbreviation attempt' := (attempt json_parse EarthquakeReports EEW BasicData_init).
Abbreviation loop_body' := (loop_body json_parse EarthquakeReports EEW BasicData_init).
Abbreviation while_true' := (while_true json_parse EarthquakeReports EEW BasicData_init).
Abbreviation kind := (kind_of EarthquakeReports EEW BasicData_init).

(** *** The invariants, step by step *)

Lemma on_close_same : keeps same_listeners __on_close.
Proof.
  unfold __on_close.
  keep_bind; [intros s; apply keeps_debug_same|]. intros _.
  keep_bind; [apply keeps_set_isReady_same|]. intros _.
  apply keeps_emit_same. in_events.
Qed.

Lemma on_error_same (e : exn) : keeps same_listeners (__on_error e).
Proof.
  unfold __on_error.
  keep_bind; [intros s; apply keeps_debug_same|]. intros _.
  keep_bind; [apply keeps_debug_same|]. intros _.
  apply keeps_emit_same. in_events.
Qed.

Lemma on_error_ready (e : exn) : keeps ready_until_close (__on_error e).
Proof.
  unfold __on_error.
  keep_bind; [intros s; apply keeps_debug_ready|]. intros _.
  keep_bind; [apply keeps_debug_ready|]. intros _.
  apply keeps_emit_ready.
Qed.

Lemma attempt_same uri websocket conn : keeps same_listeners (attempt' uri websocket conn).
Proof.
  apply keeps_attempt; try exact _; intros;
    first [ apply keeps_debug_same | apply keeps_set_ws_same
          | apply keeps_set_isReady_same | apply on_close_same | apply on_error_same
          | apply keeps_tell_same | apply keeps_emit_same; in_events ].
Qed.

Lemma while_true_same fuel max_retries retry_interval uri net retries :
  keeps same_listeners (while_true' fuel max_retries retry_interval uri net retries).
Proof.
  apply keeps_while_true; try exact _; intros;
    first [ apply keeps_debug_same | apply keeps_set_ws_same
          | apply keeps_set_isReady_same | apply on_close_same | apply on_error_same
          | apply keeps_tell_same | apply keeps_emit_same; in_events ].
Qed.

Lemma ready_steps :
  (forall l, keeps ready_until_close (__debug_message__ l)) /\
  (forall event args, keeps ready_until_close (emit event args)) /\
  (forall websocket, keeps ready_until_close (set_ws websocket)) /\
  keeps ready_until_close (set_isReady true) /\
  (forall ev, keeps ready_until_close (tell ev)).
Proof.
  split; [exact keeps_debug_ready|].
  split; [exact keeps_emit_ready|].
  split; [intros websocket s Hr _; exact Hr|].
  split; [intros s _ _; reflexivity|].
  intros ev s Hr _; exact Hr.
Qed.

Lemma loop_body_ready max_retries retry_interval uri conn retries :
  keeps ready_until_close (loop_body' max_retries retry_interval uri conn retries).
Proof.
  destruct ready_steps as (Hd & He & Hw & Hr & Ht).
  apply keeps_loop_body; try exact _; intros;
    first [ apply Hd | apply He | apply Hw | apply Hr | apply Ht
          | apply keeps_on_close_ready | apply on_error_ready ].
Qed.

Lemma while_true_ready fuel max_retries retry_interval uri net retries :
  keeps ready_until_close (while_true' fuel max_retries retry_interval uri net retries).
Proof.
  destruct ready_steps as (Hd & He & Hw & Hr & Ht).
  apply keeps_while_true; try exact _; intros;
    first [ apply Hd | apply He | apply Hw | apply Hr | apply Ht
          | apply keeps_on_close_ready | apply on_error_ready ].
Qed.

Lemma keeps_set_quiet :
  (forall websocket, keeps quiet (set_ws websocket)) /\
  (forall b, keeps quiet (set_isReady b)).
Proof. split; intros ? s; split; reflexivity. Qed.

Lemma handshake_and_body_quiet websocket conn :
  keeps quiet (handshake_and_body' websocket conn).
Proof.
  destruct keeps_set_quiet as [Hw Hr].
  apply keeps_handshake_and_body; try exact _; intros;
    first [ apply keeps_debug_quiet; assumption | apply keeps_emit_quiet
          | apply Hw | apply Hr ].
Qed.

Lemma on_close_quiet : keeps quiet __on_close.
Proof.
  destruct keeps_set_quiet as [Hw Hr]. unfold __on_close.
  keep_bind; [intros s; apply keeps_debug_quiet; discriminate|]. intros _.
  keep_bind; [apply Hr|]. intros _. apply keeps_emit_quiet.
Qed.

Lemma on_error_quiet (e : exn) : keeps quiet (__on_error e).
Proof.
  unfold __on_error.
  keep_bind; [intros s; apply keeps_debug_quiet; discriminate|]. intros _.
  keep_bind; [apply keeps_debug_quiet; discriminate|]. intros _. apply keeps_emit_quiet.
Qed.

Lemma handshake_and_body_publishes websocket conn :
  keeps (publishes_only session_event) (handshake_and_body' websocket conn).
Proof.
  apply keeps_handshake_and_body; try exact _; intros;
    first [ apply keeps_debug_publishes
          | apply keeps_emit_publishes; unfold session_event; rewrite !elem_of_cons; tauto
          | intros s; constructor ].
Qed.

Lemma session_event_published (name : string) (t : list effect) :
  ~ session_event name -> Forall (fun p => session_event p.1) (publications t) ->
  published name t = 0.
Proof.
  intros Hn. unfold published. induction 1 as [|p ps Hp _ IH]; [reflexivity|].
  rewrite filter_cons_False; [exact IH|]. simpl. intros Heq. apply Hn. rewrite <- Heq. exact Hp.
Qed.

Lemma handshake_and_body_no_close websocket conn (s : Client) :
  published "close" (trace_of (handshake_and_body' websocket conn s)) = 0 /\
  published "error" (trace_of (handshake_and_body' websocket conn s)) = 0.
Proof.
  split; apply session_event_published;
    try apply (handshake_and_body_publishes websocket conn s);
    unfold session_event; rewrite !elem_of_cons, elem_of_nil;
    intros H; repeat destruct H as [H|H]; try discriminate; exact H.
Qed.

(** *** The [try] statement and the loop body, unfolded *)

Lemma except_clauses_unfold (e : exn) (s : Client) :
  dispatch except_clauses e s =
  if is_ConnectionClosed e then
    let '(r, s', t) := __on_close s in
    (continue_or_raise r, s', debug_output s ClosedUnexpectedly ++ t)
  else if is_Exception e then
    let '(r, s', t) := __on_error e s in
    (continue_or_raise r, s', debug_output s (ErrorOccurred e) ++ t)
  else (Raise e, s, []).
Proof.
  unfold except_clauses. simpl.
  destruct (is_ConnectionClosed e).
  - unfold bind. rewrite debug_message_unfold.
    destruct (__on_close s) as [[[[]|e'] s'] t]; simpl; rewrite ?app_nil_r; reflexivity.
  - destruct (is_Exception e); [|reflexivity].
    unfold bind. rewrite debug_message_unfold.
    destruct (__on_error e s) as [[[[]|e'] s'] t]; simpl; rewrite ?app_nil_r; reflexivity.
Qed.

Lemma session_unfold uri websocket conn (s : Client) :
  session' uri websocket conn s =
  let '(r, s', t) := handshake_and_body' websocket conn s in (r, s', Connect uri :: t).
Proof.
  unfold session, bind, tell.
  destruct (handshake_and_body' websocket conn s) as [[r s'] t]. reflexivity.
Qed.

Lemma attempt_unfold uri websocket conn (s : Client) :
  attempt' uri websocket conn s =
  let '(r1, s1, t1) := handshake_and_body' websocket conn s in
  match r1 with
  | Ok _ =>
      let '(r2, s2, t2) := __on_close s1 in
      match r2 with
      | Ok _ => (Ok Break, s2, Connect uri :: t1 ++ debug_output s1 ClosedNormally ++ t2)
      | Raise e =>
          let '(r3, s3, t3) := dispatch except_clauses e s2 in
          (r3, s3, (Connect uri :: t1 ++ debug_output s1 ClosedNormally ++ t2) ++ t3)
      end
  | Raise e =>
      let '(r3, s3, t3) := dispatch except_clauses e s1 in
      (r3, s3, (Connect uri :: t1) ++ t3)
  end.
Proof.
  unfold attempt, try_excepts. unfold bind at 1. rewrite session_unfold.
  destruct (handshake_and_body' websocket conn s) as [[[[]|e] s1] t1]; [|reflexivity].
  unfold bind. rewrite debug_message_unfold.
  destruct (__on_close s1) as [[[[]|e] s2] t2]; simpl; rewrite ?app_nil_r; reflexivity.
Qed.

Lemma loop_body_unfold max_retries retry_interval uri conn retries (s : Client) :
  loop_body' max_retries retry_interval uri conn retries s =
  let '(r, s1, t1) := attempt' uri retries conn s in
  let t0 := debug_output s (Connecting uri (retries + 1)) in
  match r with
  | Raise e => (Raise e, s1, t0 ++ t1)
  | Ok Break => (Ok (Break, retries), s1, t0 ++ t1)
  | Ok Continue =>
      if max_retries_reached max_retries (retries + 1)
      then (Ok (Break, retries + 1), s1, t0 ++ t1 ++ debug_output s1 MaxRetriesReached)
      else (Ok (Continue, retries + 1), s1,
            t0 ++ t1 ++ debug_output s1 (Waiting retry_interval) ++ [Sleep retry_interval])
  end.
Proof.
  unfold loop_body. unfold bind at 1. rewrite debug_message_unfold.
  unfold bind at 1.
  destruct (attempt' uri retries conn s) as [[[[|]|e] s1] t1]; simpl.
  - rewrite app_nil_r. reflexivity.
  - destruct (max_retries_reached max_retries (retries + 1)).
    + unfold bind. rewrite debug_message_unfold. simpl. rewrite app_nil_r. reflexivity.
    + unfold bind, tell. rewrite debug_message_unfold. simpl. reflexivity.
  - reflexivity.
Qed.

(** The trace of one [try]: the connection, then steps that neither
    connect nor sleep nor announce. *)
Lemma attempt_trace uri websocket conn (s : Client) :
  exists t, trace_of (attempt' uri websocket conn s) = Connect uri :: t /\
            schedule t = [] /\ announced t = [].
Proof.
  assert (forall e s2, quiet s2 (self_of (dispatch except_clauses e s2))
                         (trace_of (dispatch except_clauses e s2))) as Hex.
  { intros e s2. rewrite except_clauses_unfold.
    destruct (is_ConnectionClosed e); [|destruct (is_Exception e)].
    - pose proof (on_close_quiet s2) as [H1 H2].
      destruct (__on_close s2) as [[r s'] t]. unfold trace_of in *. cbn [fst snd] in *.
      unfold quiet. rewrite schedule_app, announced_app, H1, H2.
      unfold debug_output. destruct (isDebug (opt s2)); auto.
    - pose proof (on_error_quiet e s2) as [H1 H2].
      destruct (__on_error e s2) as [[r s'] t]. unfold trace_of in *. cbn [fst snd] in *.
      unfold quiet. rewrite schedule_app, announced_app, H1, H2.
      unfold debug_output. destruct (isDebug (opt s2)); auto.
    - split; reflexivity. }
  rewrite attempt_unfold.
  pose proof (handshake_and_body_quiet websocket conn s) as [H1 H1'].
  destruct (handshake_and_body' websocket conn s) as [[[[]|e] s1] t1];
    unfold trace_of in *; cbn [fst snd] in *.
  - pose proof (on_close_quiet s1) as [H2 H2'].
    destruct (__on_close s1) as [[[[]|e] s2] t2]; unfold trace_of in *; cbn [fst snd] in *.
    + eexists. split; [reflexivity|].
      rewrite !schedule_app, !announced_app, H1, H1', H2, H2'.
      unfold debug_output. destruct (isDebug (opt s1)); auto.
    + specialize (Hex e s2). destruct Hex as [H3 H3'].
      destruct (dispatch except_clauses e s2) as [[r3 s3] t3];
        unfold trace_of in *; cbn [fst snd] in *.
      eexists. split; [reflexivity|].
      rewrite !schedule_app, !announced_app, H1, H1', H2, H2', H3, H3'.
      unfold debug_output. destruct (isDebug (opt s1)); auto.
  - specialize (Hex e s1). destruct Hex as [H3 H3'].
    destruct (dispatch except_clauses e s1) as [[r3 s3] t3];
      unfold trace_of in *; cbn [fst snd] in *.
    eexists. split; [reflexivity|].
    rewrite !schedule_app, !announced_app, H1, H1', H3, H3'. auto.
Qed.

Lemma receive_ok frames fin (s : Client) :
  result_of (receive' frames fin s) = Ok tt -> fin = CloseOK.
Proof.
  revert s. induction frames as [|message rest IH]; intros s; simpl.
  - destruct fin; [reflexivity|discriminate].
  - unfold bind. destruct (on_message message s) as [[[[]|e] s1] t1]; [|discriminate].
    specialize (IH s1). unfold result_of in *.
    destruct (receive' rest fin s1) as [[r s2] t2]. exact IH.
Qed.

Lemma handshake_ok websocket conn (s : Client) :
  result_of (handshake_and_body' websocket conn s) = Ok tt ->
  exists frames, conn = Accepted frames CloseOK.
Proof.
  destruct conn as [e|frames fin]; [discriminate|].
  cbn [handshake_and_body]. unfold bind at 1. unfold set_ws at 1. unfold bind at 1.
  destruct (__on_ready _) as [[[[]|e] s1] t1]; [|discriminate].
  pose proof (receive_ok frames fin s1) as Hrecv. unfold result_of in *.
  destruct (receive' frames fin s1) as [[r s2] t2]. cbn [fst snd] in *.
  intros H. exists frames. rewrite (Hrecv H). reflexivity.
Qed.

(** A [try] left through [break] belongs to a connection the server
    closed cleanly. *)
Lemma attempt_break uri websocket conn (s : Client) :
  result_of (attempt' uri websocket conn s) = Ok Break ->
  exists frames, conn = Accepted frames CloseOK.
Proof.
  rewrite attempt_unfold.
  assert (forall e s2, result_of (dispatch except_clauses e s2) <> Ok Break) as Hex.
  { intros e s2. rewrite except_clauses_unfold.
    destruct (is_ConnectionClosed e); [|destruct (is_Exception e)].
    - destruct (__on_close s2) as [[[[]|e'] s'] t]; discriminate.
    - destruct (__on_error e s2) as [[[[]|e'] s'] t]; discriminate.
    - discriminate. }
  pose proof (handshake_ok websocket conn s) as Hh.
  destruct (handshake_and_body' websocket conn s) as [[[[]|e] s1] t1].
  - intros _. apply Hh. reflexivity.
  - specialize (Hex e s1). destruct (dispatch except_clauses e s1) as [[r3 s3] t3].
    intros H. exfalso. exact (Hex H).
Qed.

(** *** Closing *)

Lemma handshake_and_body_same websocket conn :
  keeps same_listeners (handshake_and_body' websocket conn).
Proof.
  apply keeps_handshake_and_body; try exact _; intros;
    first [ apply keeps_debug_same | apply keeps_set_ws_same
          | apply keeps_set_isReady_same | apply keeps_emit_same; in_events ].
Qed.

Lemma plain_listeners_attrs (s s' : Client) :
  attrs s' = attrs s -> plain_listeners s -> plain_listeners s'.
Proof. intros Ha Hs event Hev. rewrite Ha. apply Hs, Hev. Qed.

Lemma on_close_plain (s : Client) :
  plain_listeners s ->
  __on_close s =
  (listener_result s "close" [], with_isReady false s,
   debug_output s (DisconnectedFrom (__get_ws_url__ s)) ++
   Publish "close" [] :: listener_awaited s "close" []).
Proof.
  intros Hs. rewrite on_close_unfold.
  rewrite emit_plain; [reflexivity| |in_events].
  apply (plain_listeners_attrs s); [reflexivity|exact Hs].
Qed.

Lemma on_error_plain (e : exn) (s : Client) :
  plain_listeners s ->
  __on_error e s =
  (listener_result s "error" [VExc e], s,
   debug_output s (ErrorAt (__get_ws_url__ s)) ++ debug_output s (Value e) ++
   Publish "error" [VExc e] :: listener_awaited s "error" [VExc e]).
Proof.
  intros Hs. rewrite on_error_unfold. rewrite emit_plain; [reflexivity|exact Hs|in_events].
Qed.

Lemma on_error_publications (e : exn) (s : Client) :
  publications (trace_of (__on_error e s)) = [("error", [VExc e])].
Proof.
  rewrite on_error_unfold.
  pose proof (emit_publications "error" [VExc e] s) as He.
  destruct (emit "error" [VExc e] s) as [[r s'] t]. unfold trace_of in *.
  cbn [fst snd] in *.
  rewrite !publications_app, !debug_output_publications. exact He.
Qed.

Lemma published_on_error (name : string) (e : exn) (s : Client) :
  published name (trace_of (__on_error e s)) = if decide ("error" = name) then 1 else 0.
Proof.
  unfold published. rewrite on_error_publications. simpl.
  case_decide as H.
  - rewrite filter_cons_True by exact H. reflexivity.
  - rewrite filter_cons_False by exact H. reflexivity.
Qed.


Lemma except_clauses_close (e : exn) (s : Client) :
  published "close" (trace_of (dispatch except_clauses e s)) =
  if is_ConnectionClosed e then 1 else 0.
Proof.
  rewrite except_clauses_unfold.
  destruct (is_ConnectionClosed e); [|destruct (is_Exception e)].
  - pose proof (published_on_close s) as Hc.
    destruct (__on_close s) as [[r s'] t]. unfold trace_of in *. cbn [fst snd] in *.
    rewrite published_app, published_debug_output. exact Hc.
  - pose proof (published_on_error "close" e s) as Hc.
    destruct (__on_error e s) as [[r s'] t]. unfold trace_of in *. cbn [fst snd] in *.
    rewrite published_app, published_debug_output. exact Hc.
  - reflexivity.
Qed.

Lemma published_connect (name uri : string) (t : list effect) :
  published name (Connect uri :: t) = published name t.
Proof. reflexivity. Qed.


(** *** The error path *)

Lemma emit_isReady (event : string) (args : list pyval) (s : Client) :
  isReady (self_of (emit event args s)) = isReady s.
Proof.
  rewrite emit_unfold. destruct (EventEmitter.emit event args (attrs s)) as [[r o] t].
  reflexivity.
Qed.

Lemma on_error_isReady (e : exn) (s : Client) :
  isReady (self_of (__on_error e s)) = isReady s.
Proof.
  rewrite on_error_unfold. pose proof (emit_isReady "error" [VExc e] s) as H.
  destruct (emit "error" [VExc e] s) as [[r s'] t]. exact H.
Qed.

Lemma receive_ready frames fin (s : Client) :
  isReady s = true -> isReady (self_of (receive' frames fin s)) = true.
Proof.
  intros Hr. destruct ready_steps as (Hd & He & Hw & Hrd & Ht).
  assert (keeps ready_until_close (receive' frames fin)) as Hk
    by (apply keeps_receive; try exact _; intros; first [apply Hd|apply He]).
  assert (keeps (publishes_only session_event) (receive' frames fin)) as Hp.
  { apply keeps_receive; try exact _; intros;
      first [ apply keeps_debug_publishes
            | apply keeps_emit_publishes; unfold session_event; rewrite !elem_of_cons;
              tauto ]. }
  apply (Hk s Hr). apply session_event_published; [|apply (Hp s)].
  unfold session_event. rewrite !elem_of_cons, elem_of_nil.
  intros H; repeat destruct H as [H|H]; try discriminate; exact H.
Qed.

(** Once the handshake is through the client is ready, however the
    session goes on. *)
Lemma handshake_accepted_ready websocket frames fin (s : Client) :
  isReady (self_of (handshake_and_body' websocket (Accepted frames fin) s)) = true.
Proof.
  cbn [handshake_and_body]. unfold bind at 1. unfold set_ws at 1. unfold bind at 1.
  rewrite on_ready_unfold.
  pose proof (emit_isReady "ready" []
                (with_isReady true
                   {| attrs := attrs s; opt := opt s; ws := Some websocket;
                      isReady := isReady s |})) as Hr.
  destruct (emit "ready" [] _) as [[[[]|e] s1] t1]; unfold self_of in *;
    cbn [fst snd] in *; [|exact Hr].
  pose proof (receive_ready frames fin s1 Hr) as Hrecv.
  destruct (receive' frames fin s1) as [[r s2] t2]. exact Hrecv.
Qed.


(** *** Listeners that raise *)

Lemma emit_result_plain (event : string) (args : list pyval) (s : Client) :
  plain_listeners s -> event ∈ client_events ->
  result_of (emit event args s) = listener_result s event args.
Proof. intros Hs Hev. rewrite (emit_plain _ _ _ Hs Hev). reflexivity. Qed.

Lemma listener_awaited_publications (s : Client) (event : string) (args : list pyval) :
  publications (listener_awaited s event args) = [].
Proof. unfold listener_awaited. destruct (attrs s !! event) as [[]|]; reflexivity. Qed.


(** *** The retry loop *)

Lemma loop_body_counter max_retries retry_interval uri conn retries (s : Client)
    (c : control) (retries' : nat) :
  result_of (loop_body' max_retries retry_interval uri conn retries s) = Ok (c, retries') ->
  retries <= retries' <= retries + 1 /\ (c = Continue -> retries' = retries + 1).
Proof.
  rewrite loop_body_unfold.
  destruct (attempt' uri retries conn s) as [[[[|]|e] s1] t1]; cbn.
  - intros [= <- <-]. split; [lia|discriminate].
  - destruct (max_retries_reached max_retries (retries + 1)); cbn;
      intros [= <- <-]; split; auto; lia.
  - discriminate.
Qed.

Lemma reached_iff (n retries : nat) :
  max_retries_reached (Some (Z.of_nat n)) retries = true <-> n <= retries.
Proof. unfold max_retries_reached. rewrite Z.leb_le. lia. Qed.

Lemma schedule_debug_output (s : Client) (l : line) : schedule (debug_output s l) = [].
Proof. unfold debug_output. destruct (isDebug (opt s)); reflexivity. Qed.

Lemma announced_connecting (s : Client) (uri : string) (k : nat) :
  announced (debug_output s (Connecting uri k)) = if isDebug (opt s) then [k] else [].
Proof. unfold debug_output. destruct (isDebug (opt s)); reflexivity. Qed.

Lemma announced_debug_output (s : Client) (l : line) :
  (forall uri k, l <> Connecting uri k) -> announced (debug_output s l) = [].
Proof.
  intros Hl. unfold debug_output. destruct (isDebug (opt s)); [|reflexivity].
  destruct l; try reflexivity. exfalso. eapply Hl. reflexivity.
Qed.

(** Turns that all end in failure, [S k] of them left before the bound. *)
Lemma while_true_failing (n : nat) (retry_interval : float) (uri : string)
    (net : nat -> connection) (base : Client) :
  plain_listeners base ->
  (forall i s, i < n -> attrs s = attrs base -> opt s = opt base ->
               result_of (attempt' uri i (net i) s) = Ok Continue) ->
  forall k retries fuel s,
    retries + S k = n -> k < fuel -> attrs s = attrs base -> opt s = opt base ->
    let run := while_true' fuel (Some (Z.of_nat n)) retry_interval uri net retries s in
    result_of run = Ok (Some n) /\
    schedule (trace_of run) = retry_schedule uri retry_interval (S k) /\
    announced (trace_of run) =
      (if isDebug (opt base) then seq (retries + 1) (S k) else []) /\
    (isDebug (opt base) = true -> last (trace_of run) = Some (Print MaxRetriesReached)).
Proof.
  intros Hbase Hfail k. induction k as [|k IH]; intros retries fuel s Hn Hfuel Ha Ho run;
    (destruct fuel as [|fuel]; [lia|]); subst run; cbn [while_true]; unfold bind;
    rewrite loop_body_unfold;
    pose proof (Hfail retries s ltac:(lia) Ha Ho) as Hr;
    pose proof (attempt_same uri retries (net retries) s
                  (plain_listeners_attrs base s Ha Hbase)) as [Ha1 Ho1];
    destruct (attempt_trace uri retries (net retries) s) as (t & Ht & Hsch & Hann);
    destruct (attempt' uri retries (net retries) s) as [[r s1] t1];
    unfold result_of, self_of, trace_of in *; cbn [fst snd] in *; subst r t1.
  - assert (max_retries_reached (Some (Z.of_nat n)) (retries + 1) = true) as ->
      by (apply reached_iff; lia).
    cbn [fst snd ret]. rewrite app_nil_r.
    replace (retries + 1) with n by lia.
    split; [reflexivity|]. split; [|split].
    + rewrite !schedule_app, !schedule_debug_output.
      change (schedule (Connect uri :: t)) with (inl uri :: schedule t). rewrite Hsch.
      reflexivity.
    + rewrite !announced_app, announced_connecting, announced_debug_output by discriminate.
      change (announced (Connect uri :: t)) with (announced t). rewrite Hann, Ho.
      destruct (isDebug (opt base)); reflexivity.
    + intros Hd. unfold debug_output at 2. rewrite Ho1, Ho, Hd.
      rewrite !app_assoc. apply last_snoc.
  - assert (max_retries_reached (Some (Z.of_nat n)) (retries + 1) = false) as ->.
    { destruct (max_retries_reached (Some (Z.of_nat n)) (retries + 1)) eqn:E; [|reflexivity].
      apply reached_iff in E. lia. }
    specialize (IH (retries + 1) fuel s1 ltac:(lia) ltac:(lia)
                  ltac:(congruence) ltac:(congruence)).
    cbn zeta in IH. destruct IH as (IHr & IHs & IHa & IHl).
    destruct (while_true' fuel (Some (Z.of_nat n)) retry_interval uri net (retries + 1) s1)
      as [[r2 s2] t2].
    unfold result_of, trace_of in *. cbn [fst snd] in *.
    split; [exact IHr|]. split; [|split].
    + rewrite !schedule_app, IHs, !schedule_debug_output.
      change (schedule (Connect uri :: t)) with (inl uri :: schedule t). rewrite Hsch.
      reflexivity.
    + rewrite !announced_app, IHa, announced_connecting,
        announced_debug_output by discriminate.
      change (announced (Connect uri :: t)) with (announced t). rewrite Hann, Ho.
      replace (retries + 1 + 1) with (S (retries + 1)) by lia.
      destruct (isDebug (opt base)); reflexivity.
    + intros Hd. rewrite last_app, (IHl Hd). reflexivity.
Qed.


End Supervisor.

(** ** The definitions at work *)

Example tsunami_decodes :
  (data <- json_loads sample_json_parse frame_tsunami ;;
   Tsunami sample_BasicData_init data)%expr = Ok sample_tsunami.
Proof. vm_compute. reflexivity. Qed.

(** The tsunami frame of the spec's end-to-end example lacks [_id] and does
    not decode. *)
Example tsunami_short_does_not_decode :
  (data <- json_loads sample_json_parse frame_tsunami_short ;;
   Tsunami sample_BasicData_init data)%expr = Raise (Exn KeyError "_id").
Proof. vm_compute. reflexivity. Qed.

Example frames_in_order :
  publications
    (trace_of (receive sample_json_parse sample_EarthquakeReports sample_EEW
                 sample_BasicData_init
                 [frame_earthquake; frame_unknown; frame_tsunami] CloseOK
                 (client_with false []))) =
  [("rawmessage", [VStr frame_earthquake]);
   ("earthquake", [VInst "EarthquakeReports" [("_id", VStr "e1")]]);
   ("rawmessage", [VStr frame_unknown]);
   ("rawmessage", [VStr frame_tsunami]);
   ("tsunami", [sample_tsunami])].
Proof. vm_compute. reflexivity. Qed.

(** A client as [__init__] builds it, with listeners registered through
    [on], has listeners only under the names the client publishes under. *)
Lemma on_keeps_plain (h : coro) (self : Client) :
  plain_listeners self -> plain_listeners (self_of (on (OCoroFn h) self)).
Proof.
  intros Hs event Hev. unfold on, inherited. rewrite on_coroutine. cbn.
  destruct (decide (co_name h = event)) as [<-|Hne].
  - right. exists h. apply lookup_insert_eq.
  - rewrite lookup_insert_ne by exact Hne. apply Hs, Hev.
Qed.

Lemma init_plain (isDebug isSandbox : bool) : plain_listeners (__init__ isDebug isSandbox).
Proof.
  intros event Hev. left. unfold client_events in Hev.
  rewrite !elem_of_cons, elem_of_nil in Hev.
  repeat destruct Hev as [->|Hev]; try reflexivity. contradiction.
Qed.

Lemma client_with_plain (isDebug : bool) (listeners : list coro) :
  plain_listeners (client_with isDebug listeners).
Proof.
  unfold client_with. generalize (init_plain isDebug false).
  generalize (__init__ isDebug false). induction listeners as [|h rest IH]; intros c Hc.
  - exact Hc.
  - cbn [fold_left]. apply IH, on_keeps_plain, Hc.
Qed.

Lemma with_isReady_plain (b : bool) (self : Client) :
  plain_listeners self -> plain_listeners (with_isReady b self).
Proof. intros Hs event Hev. apply Hs, Hev. Qed.












(** [client.start()] against a server that refuses every connection: the
    defaults give ten attempts, five seconds apart. *)
Example start_gives_up_after_ten_attempts :
  let run := start sample_json_parse sample_EarthquakeReports sample_EEW
               sample_BasicData_init 10 (fun _ => Refused refused) (client_with false []) in
  result_of run = Ok (Some 10) /\
  schedule (trace_of run) = retry_schedule production_url 5%float 10.
Proof. vm_compute. split; reflexivity. Qed.

(** ** More on tsunami.py *)

Lemma and_then_ok {A B} (r : pyresult A) (k : A -> pyresult B) (y : B) :
  and_then r k = Ok y -> exists x, r = Ok x /\ k x = Ok y.
Proof. destruct r as [x|e]; [eauto|discriminate]. Qed.

Lemma assoc_set_field_eq (k : string) (v : pyval) (fields : list (string * pyval)) :
  assoc k (set_field k v fields) = Some v.
Proof.
  induction fields as [|[k' v'] rest IH]; simpl.
  - rewrite String.eqb_refl. reflexivity.
  - destruct (String.eqb k k') eqn:E; simpl.
    + rewrite String.eqb_refl. reflexivity.
    + rewrite E. exact IH.
Qed.

Lemma assoc_set_field_ne (k k' : string) (v : pyval) (fields : list (string * pyval)) :
  k <> k' -> assoc k' (set_field k v fields) = assoc k' fields.
Proof.
  intros Hne. induction fields as [|[k0 v0] rest IH]; simpl.
  - apply String.eqb_neq in Hne. rewrite String.eqb_sym, Hne. reflexivity.
  - destruct (String.eqb k k0) eqn:E; simpl.
    + apply String.eqb_eq in E. subst k0.
      assert (String.eqb k' k = false) as -> by (apply String.eqb_neq; congruence).
      reflexivity.
    + destruct (String.eqb k' k0); [reflexivity|exact IH].
Qed.

Lemma traverse_Forall2 (f : pyval -> pyresult pyval) (l l' : list pyval) :
  traverse f l = Ok l' <-> Forall2 (fun x y => f x = Ok y) l l'.
Proof.
  revert l'. induction l as [|x rest IH]; intros l'; simpl.
  - split.
    + intros [= <-]. constructor.
    + intros H. inversion H. reflexivity.
  - split.
    + intros H. apply and_then_ok in H as (y & Hy & H).
      apply and_then_ok in H as (ys & Hys & [= <-]).
      constructor; [exact Hy|]. apply IH, Hys.
    + intros H. inversion H as [|? y ? ys Hy Hys]; subst.
      rewrite Hy. simpl. apply IH in Hys. rewrite Hys. reflexivity.
Qed.

Section TsunamiFacts.
Variable BasicData_init : pyval -> pyresult (list (string * pyval)).

Abbreviation Tsunami' := (Tsunami BasicData_init).

(** A string is no tsunami area. *)
Lemma TsunamiArea_str (s : string) (y : pyval) : TsunamiArea (VStr s) <> Ok y.
Proof. discriminate. Qed.

(** The items of a non-empty value that all decode as areas are the items
    of a list. *)
Lemma areas_are_a_list (a : pyval) (items l : list pyval) :
  truthy a = true -> iterate a = Ok items -> traverse TsunamiArea items = Ok l ->
  a = VList items.
Proof.
  intros Ht Hi Htr. destruct a; try discriminate.
  - simpl in Hi. destruct s as [|c s]; [discriminate|].
    injection Hi as <-. discriminate.
  - simpl in Hi. congruence.
  - simpl in Hi. destruct kvs as [|[k v] kvs]; [discriminate|].
    injection Hi as <-. discriminate.
Qed.

(** X1: a tsunami report that decodes carries the values of the frame:
    [code], [cancelled] and the decoded [issue] are those of the frame, and
    [_id] is the frame's [_id], or its [id] when [_id] is there but falsy;
    so all of these keys are required. *)
Theorem tsunami_fields_come_from_the_frame (data obj : pyval) :
  Tsunami' data = Ok obj ->
  exists fields x,
    obj = VInst "Tsunami" fields /\
    subscript data "_id" = Ok x /\
    (if truthy x then assoc "_id" fields = Some x
     else exists y, subscript data "id" = Ok y /\ assoc "_id" fields = Some y) /\
    (exists c, subscript data "code" = Ok c /\ assoc "code" fields = Some c) /\
    (exists c, subscript data "cancelled" = Ok c /\ assoc "cancelled" fields = Some c) /\
    (exists d i, subscript data "issue" = Ok d /\ TsunamiIssue d = Ok i /\
                 assoc "issue" fields = Some i).
Proof.
  unfold Tsunami. intros H.
  apply and_then_ok in H as (self0 & _ & H).
  apply and_then_ok in H as (_id & Hid & H).
  apply and_then_ok in Hid as (x & Hx & Hid).
  cbn [and_then] in H.
  apply and_then_ok in H as (code & Hcode & H). cbn [and_then] in H.
  apply and_then_ok in H as (cancelled & Hcanc & H). cbn [and_then] in H.
  apply and_then_ok in H as (d & Hd & H).
  apply and_then_ok in H as (issue & Hissue & H). cbn [and_then] in H.
  apply and_then_ok in H as (areas & _ & [= <-]).
  eexists _, x. split; [reflexivity|]. split; [exact Hx|].
  split; [|split; [|split]].
  - destruct (truthy x).
    + rewrite !assoc_set_field_ne by discriminate. rewrite assoc_set_field_eq. congruence.
    + exists _id. split; [exact Hid|].
      rewrite !assoc_set_field_ne by discriminate. apply assoc_set_field_eq.
  - exists code. split; [exact Hcode|].
    rewrite !assoc_set_field_ne by discriminate. apply assoc_set_field_eq.
  - exists cancelled. split; [exact Hcanc|].
    rewrite !assoc_set_field_ne by discriminate. apply assoc_set_field_eq.
  - exists d, issue. split; [exact Hd|]. split; [exact Hissue|].
    rewrite !assoc_set_field_ne by discriminate. apply assoc_set_field_eq.
Qed.

(** X2: a frame without the key [_id] is rejected with [KeyError], whether
    or not it has an [id]: the fallback to [id] is only reached when [_id]
    is present. *)
Theorem tsunami_requires_underscore_id (kvs : list (string * pyval))
    (self0 : list (string * pyval)) :
  BasicData_init (VDict kvs) = Ok self0 ->
  assoc "_id" kvs = None ->
  Tsunami' (VDict kvs) = Raise (Exn KeyError "_id").
Proof. intros Hb Hid. unfold Tsunami. rewrite Hb. simpl. rewrite Hid. reflexivity. Qed.

(** X3: in a tsunami report that decodes, [areas] is [None] when the frame
    has no [areas] or a falsy one (an empty list, as in a cancellation);
    otherwise the frame's [areas] is a list and the report holds one decoded
    area per item, in order. *)
Theorem tsunami_areas (data : pyval) (fields : list (string * pyval)) :
  Tsunami' data = Ok (VInst "Tsunami" fields) ->
  exists a,
    dict_get data "areas" VNone = Ok a /\
    if truthy a
    then exists items l,
        a = VList items /\
        Forall2 (fun x y => TsunamiArea x = Ok y) items l /\
        assoc "areas" fields = Some (VList l)
    else assoc "areas" fields = Some VNone.
Proof.
  unfold Tsunami. intros H.
  apply and_then_ok in H as (self0 & _ & H).
  apply and_then_ok in H as (_id & _ & H). cbn [and_then] in H.
  apply and_then_ok in H as (code & _ & H). cbn [and_then] in H.
  apply and_then_ok in H as (cancelled & _ & H). cbn [and_then] in H.
  apply and_then_ok in H as (d & _ & H).
  apply and_then_ok in H as (issue & _ & H). cbn [and_then] in H.
  apply and_then_ok in H as (areas & Ha & [= <-]).
  apply and_then_ok in Ha as (a & Hget & Ha).
  exists a. split; [exact Hget|].
  rewrite assoc_set_field_eq.
  destruct (truthy a) eqn:Ht.
  - apply and_then_ok in Ha as (src & Hsrc & Ha).
    apply and_then_ok in Ha as (items & Hit & Ha).
    apply and_then_ok in Ha as (l & Htr & [= <-]).
    assert (src = a) as ->.
    { destruct data; try discriminate. simpl in Hget, Hsrc.
      destruct (assoc "areas" kvs); [congruence|].
      injection Hget as <-. discriminate. }
    exists items, l. split; [|split; [|reflexivity]].
    + apply (areas_are_a_list a items l Ht Hit Htr).
    + apply traverse_Forall2, Htr.
  - injection Ha as <-. reflexivity.
Qed.

(** X4: [FirstHeight] decodes exactly the dicts that have [arrivalTime];
    [condition] is the value of the frame, [None] when the key is missing. *)
Theorem first_height_condition_defaults_to_none (data obj : pyval) :
  FirstHeight data = Ok obj <->
  exists kvs t,
    data = VDict kvs /\ assoc "arrivalTime" kvs = Some t /\
    obj = VInst "FirstHeight"
            [("arrivalTime", t); ("condition", value_or VNone data "condition")].
Proof.
  unfold FirstHeight. split.
  - intros H. apply and_then_ok in H as (t & Ht & H).
    apply and_then_ok in H as (c & Hc & [= <-]).
    destruct data; try discriminate. simpl in Ht, Hc.
    destruct (assoc "arrivalTime" kvs) as [t'|] eqn:E; [|discriminate].
    injection Ht as ->. injection Hc as <-.
    exists kvs, t. split; [reflexivity|]. split; [exact E|reflexivity].
  - intros (kvs & t & -> & Ht & ->). simpl. rewrite Ht. reflexivity.
Qed.

End TsunamiFacts.

Lemma tsunami_fields_come_from_the_frame_witness :
  exists fields,
    sample_tsunami = VInst "Tsunami" fields /\
    assoc "_id" fields = Some (VStr "t1") /\
    assoc "code" fields = Some (VInt 552).
Proof.
  destruct (tsunami_fields_come_from_the_frame sample_BasicData_init
              (VDict [("_id", VStr "t1"); ("code", VInt 552); ("cancelled", VBool true);
                      ("issue", VDict [("source", VStr "JMA");
                                       ("time", VStr "2024/01/01 00:00:00");
                                       ("type", VStr "Focus")])])
              sample_tsunami)
    as (fields & x & Hobj & Hx & Hid & (c & Hc & Hcode) & _);
    [vm_compute; reflexivity|].
  exists fields. split; [exact Hobj|].
  injection Hx as <-. injection Hc as <-. split; [exact Hid|exact Hcode].
Defined.

Lemma tsunami_requires_underscore_id_witness :
  Tsunami sample_BasicData_init
    (VDict [("id", VStr "t1"); ("code", VInt 552); ("cancelled", VBool false)]) =
  Raise (Exn KeyError "_id").
Proof.
  apply (tsunami_requires_underscore_id sample_BasicData_init
           [("id", VStr "t1"); ("code", VInt 552); ("cancelled", VBool false)]
           [("code", VInt 552)]); reflexivity.
Defined.

Lemma tsunami_areas_witness :
  exists fields, sample_tsunami = VInst "Tsunami" fields /\ assoc "areas" fields = Some VNone.
Proof.
  eexists. split; [reflexivity|].
  destruct (tsunami_areas sample_BasicData_init
              (VDict [("_id", VStr "t1"); ("code", VInt 552); ("cancelled", VBool true);
                      ("issue", VDict [("source", VStr "JMA");
                                       ("time", VStr "2024/01/01 00:00:00");
                                       ("type", VStr "Focus")])])
              [("code", VInt 552); ("_id", VStr "t1"); ("cancelled", VBool true);
               ("issue", VInst "TsunamiIssue"
                           [("source", VStr "JMA"); ("time", VStr "2024/01/01 00:00:00");
                            ("_type", VStr "Focus")]);
               ("areas", VNone)])
    as (a & Ha & H); [vm_compute; reflexivity|].
  injection Ha as <-. exact H.
Defined.

Lemma first_height_condition_defaults_to_none_witness :
  FirstHeight (VDict [("arrivalTime", VStr "2024/01/01 00:10:00")]) =
  Ok (VInst "FirstHeight"
        [("arrivalTime", VStr "2024/01/01 00:10:00"); ("condition", VNone)]).
Proof.
  apply (proj2 (first_height_condition_defaults_to_none
                  (VDict [("arrivalTime", VStr "2024/01/01 00:10:00")]) _)).
  eexists _, _. split; [reflexivity|]. split; reflexivity.
Defined.

(** ** More on the emitter *)







(** ** More on the client *)

#[local] Instance same_ws_compositional : Compositional same_ws.
Proof. split; unfold same_ws; [reflexivity|congruence]. Qed.

#[local] Instance silent_compositional : Compositional silent.
Proof.
  split; unfold silent.
  - auto.
  - intros s s1 s2 t1 t2 H1 H2 Hs Hd. destruct (H1 Hs Hd) as (Ha & Ho & Hp).
    destruct (H2 (plain_listeners_attrs s s1 Ha Hs) ltac:(congruence)) as (Ha2 & Ho2 & Hp2).
    split; [congruence|]. split; [congruence|].
    rewrite forallb_app, Hp, Hp2. reflexivity.
Qed.

Lemma raw_messages_app (t1 t2 : list effect) :
  raw_messages (t1 ++ t2) = raw_messages t1 ++ raw_messages t2.
Proof. unfold raw_messages. rewrite publications_app. apply omap_app. Qed.

Lemma emit_ws (event : string) (args : list pyval) : keeps same_ws (emit event args).
Proof.
  intros s. unfold same_ws. rewrite emit_unfold.
  destruct (EventEmitter.emit event args (attrs s)) as [[r o] t]. reflexivity.
Qed.

Lemma debug_ws (l : line) : keeps same_ws (__debug_message__ l).
Proof. intros s. unfold same_ws. rewrite debug_message_unfold. reflexivity. Qed.

Section ClientMore.
Variable json_parse : string -> option pyval.
Variables EarthquakeReports EEW : pyval -> pyresult pyval.
Variable BasicData_init : pyval -> pyresult (list (string * pyval)).

Abbreviation on_message := (__on_message json_parse EarthquakeReports EEW BasicData_init).
Abbreviation receive' := (receive json_parse EarthquakeReports EEW BasicData_init).
Abbreviation handshake_and_body' :=
  (handshake_and_body json_parse EarthquakeReports EEW BasicData_init).
Abbreviation session' := (session json_parse EarthquakeReports EEW BasicData_init).
Abbreviation attempt' := (attempt json_parse EarthquakeReports EEW BasicData_init).
Abbreviation loop_body' := (loop_body json_parse EarthquakeReports EEW BasicData_init).
Abbreviation while_true' := (while_true json_parse EarthquakeReports EEW BasicData_init).
Abbreviation kind := (kind_of EarthquakeReports EEW BasicData_init).
Abbreviation frame_publications' :=
  (frame_publications json_parse EarthquakeReports EEW BasicData_init).

Lemma typed_publication_not_raw (message : string) :
  omap raw_message_of
       (typed_publication json_parse EarthquakeReports EEW BasicData_init message) = [].
Proof.
  rewrite typed_publication_envelope.
  destruct (envelope json_parse message) as [[data c]|]; [|reflexivity].
  unfold kind_of.
  destruct (eq_int c 551); [destruct (EarthquakeReports data); reflexivity|].
  destruct (eq_int c 552); [destruct (Tsunami BasicData_init data); reflexivity|].
  destruct (eq_int c 556); [destruct (EEW data); reflexivity|reflexivity].
Qed.

Lemma on_message_raw_messages (message : string) (s : Client) :
  raw_messages (trace_of (on_message message s)) = [message].
Proof.
  unfold raw_messages. rewrite on_message_publications.
  change (omap raw_message_of (("rawmessage", [VStr message]) :: ?l))
    with (message :: omap raw_message_of l).
  destruct (result_of (emit "rawmessage" [VStr message] s)); [|reflexivity].
  rewrite typed_publication_not_raw. reflexivity.
Qed.

(** X9: the frames reach the [rawmessage] listener in the order in which
    they were received, none skipped and none twice: what is published
    under [rawmessage] during a receive loop is an initial part of the
    frames received, and all of them when the loop ends normally. *)
Theorem frames_are_published_in_receipt_order (frames : list string) (fin : stream_end)
    (s : Client) :
  let run := receive' frames fin s in
  raw_messages (trace_of run) `prefix_of` frames /\
  (result_of run = Ok tt -> raw_messages (trace_of run) = frames).
Proof.
  revert s. induction frames as [|message rest IH]; intros s; cbn [receive].
  - destruct fin; split; try apply prefix_nil; reflexivity.
  - unfold bind. pose proof (on_message_raw_messages message s) as Hm.
    destruct (on_message message s) as [[[[]|e] s1] t1]; unfold trace_of in Hm; cbn [snd] in Hm.
    + destruct (IH s1) as [Hp Hr].
      destruct (receive' rest fin s1) as [[r s2] t2].
      unfold result_of, trace_of in *. cbn [fst snd] in *.
      rewrite raw_messages_app, Hm. split.
      * apply prefix_cons, Hp.
      * intros H. rewrite (Hr H). reflexivity.
    + unfold result_of, trace_of. cbn [fst snd]. rewrite Hm. split; [|discriminate].
      apply prefix_cons, prefix_nil.
Qed.



(** *** The connection and the ready flag *)

Lemma receive_ws frames fin : keeps same_ws (receive' frames fin).
Proof. apply keeps_receive; try exact _; intros; first [apply debug_ws|apply emit_ws]. Qed.

Lemma on_ready_ws : keeps same_ws __on_ready.
Proof.
  apply keeps_on_ready; try exact _; intros; first [apply debug_ws|apply emit_ws|idtac].
  intros s. reflexivity.
Qed.

Lemma on_close_ws : keeps same_ws __on_close.
Proof.
  unfold __on_close.
  keep_bind; [intros s; apply debug_ws|]. intros _.
  keep_bind; [intros s; reflexivity|]. intros _. apply emit_ws.
Qed.

Lemma on_error_ws (e : exn) : keeps same_ws (__on_error e).
Proof.
  unfold __on_error.
  keep_bind; [intros s; apply debug_ws|]. intros _.
  keep_bind; [apply debug_ws|]. intros _. apply emit_ws.
Qed.

Lemma except_clauses_ws (e : exn) : keeps same_ws (dispatch except_clauses e).
Proof.
  apply keeps_dispatch; [exact _|].
  apply keeps_except_clauses; try exact _; intros;
    first [apply debug_ws|apply on_close_ws|apply on_error_ws].
Qed.

(** X12: [self.ws] is the connection of the last attempt that got through:
    an attempt whose connection is refused leaves it as it was, the
    connection of an earlier session included, and an accepted one sets
    it, however the session ends. *)
Theorem ws_is_the_last_accepted_connection (uri : string) (websocket : nat)
    (e : exn) (frames : list string) (fin : stream_end) (s : Client) :
  ws (self_of (attempt' uri websocket (Refused e) s)) = ws s /\
  ws (self_of (attempt' uri websocket (Accepted frames fin) s)) = Some websocket.
Proof.
  split.
  - rewrite attempt_unfold. cbn [handshake_and_body]. unfold raise.
    pose proof (except_clauses_ws e s) as H.
    destruct (dispatch except_clauses e s) as [[r3 s3] t3]. exact H.
  - rewrite attempt_unfold.
    assert (ws (self_of (handshake_and_body' websocket (Accepted frames fin) s)) =
            Some websocket) as Hh.
    { cbn [handshake_and_body]. unfold bind at 1. unfold set_ws at 1. unfold bind at 1.
      pose proof (on_ready_ws {| attrs := attrs s; opt := opt s; ws := Some websocket;
                                 isReady := isReady s |}) as H1.
      destruct (__on_ready _) as [[[[]|e1] s1] t1]; unfold same_ws, self_of in *;
        simpl in H1 |- *; [|exact H1].
      pose proof (receive_ws frames fin s1) as H2.
      destruct (receive' frames fin s1) as [[r s2] t2]. unfold same_ws, self_of in *.
      simpl in H2 |- *. congruence. }
    destruct (handshake_and_body' websocket (Accepted frames fin) s) as [[[[]|e1] s1] t1];
      unfold self_of in Hh; cbn [fst snd] in Hh.
    + pose proof (on_close_ws s1) as H2.
      destruct (__on_close s1) as [[[[]|e2] s2] t2]; unfold same_ws, self_of in *;
        cbn [fst snd] in *; [congruence|].
      pose proof (except_clauses_ws e2 s2) as H3.
      destruct (dispatch except_clauses e2 s2) as [[r3 s3] t3]. unfold same_ws, self_of in *.
      cbn [fst snd] in *. congruence.
    + pose proof (except_clauses_ws e1 s1) as H3.
      destruct (dispatch except_clauses e1 s1) as [[r3 s3] t3]. unfold same_ws, self_of in *.
      cbn [fst snd] in *. congruence.
Qed.

Lemma on_close_isReady (s : Client) : isReady (self_of (__on_close s)) = false.
Proof.
  rewrite on_close_unfold. pose proof (emit_isReady "close" [] (with_isReady false s)) as H.
  destruct (emit "close" [] (with_isReady false s)) as [[r s'] t]. exact H.
Qed.


(** *** A whole session *)

Lemma receive_unchanged frames fin : keeps unchanged (receive' frames fin).
Proof.
  apply keeps_receive; try exact _; intros;
    first [apply keeps_debug_unchanged|apply keeps_emit_unchanged; in_events].
Qed.

Lemma on_message_ok_publications (message : string) (s : Client) :
  result_of (on_message message s) = Ok tt ->
  publications (trace_of (on_message message s)) = frame_publications' message.
Proof.
  intros Hok. rewrite on_message_publications. unfold frame_publications.
  destruct (result_of (emit "rawmessage" [VStr message] s)) as [[]|e] eqn:E; [reflexivity|].
  exfalso. revert Hok. rewrite on_message_unfold. unfold result_of in *.
  destruct (emit "rawmessage" [VStr message] s) as [[r0 s0] t0]. cbn [fst] in E. subst r0.
  discriminate.
Qed.

Lemma receive_publications (frames : list string) (s : Client) :
  plain_listeners s ->
  (forall message, message ∈ frames -> result_of (on_message message s) = Ok tt) ->
  receive' frames CloseOK s =
    (Ok tt, s, trace_of (receive' frames CloseOK s)) /\
  publications (trace_of (receive' frames CloseOK s)) = flat_map frame_publications' frames.
Proof.
  intros Hs. induction frames as [|message rest IH]; intros Hok; cbn [receive flat_map].
  - split; reflexivity.
  - pose proof (Hok message ltac:(left)) as Hm.
    pose proof (on_message_ok_publications message s Hm) as Hp.
    pose proof (on_message_unchanged json_parse EarthquakeReports EEW BasicData_init
                  message s Hs) as Hu.
    destruct IH as [IHr IHp]; [intros m Hin; apply Hok; right; exact Hin|].
    unfold bind. destruct (on_message message s) as [[r s1] t1].
    unfold result_of, self_of, trace_of in *. cbn [fst snd] in *. subst r s1.
    rewrite IHr. cbn [fst snd]. split; [reflexivity|].
    rewrite publications_app, Hp, IHp. reflexivity.
Qed.


(** *** Debug output *)

Lemma silent_debug (l : line) : keeps silent (__debug_message__ l).
Proof.
  intros s Hs Hd. rewrite debug_message_unfold. unfold debug_output. rewrite Hd. auto.
Qed.

Lemma silent_emit (event : string) (args : list pyval) :
  event ∈ client_events -> keeps silent (emit event args).
Proof.
  intros Hev s Hs Hd. rewrite (emit_plain _ _ _ Hs Hev). unfold self_of, trace_of. cbn.
  split; [reflexivity|]. split; [reflexivity|].
  unfold listener_awaited. destruct (attrs s !! event) as [[]|]; reflexivity.
Qed.

Lemma silent_steps :
  (forall websocket, keeps silent (set_ws websocket)) /\
  (forall b, keeps silent (set_isReady b)) /\
  (forall uri, keeps silent (tell (Connect uri))) /\
  (forall secs, keeps silent (tell (Sleep secs))).
Proof. repeat split; intros ? s Hs Hd; auto. Qed.

Lemma silent_on_close : keeps silent __on_close.
Proof.
  destruct silent_steps as (_ & Hr & _). unfold __on_close.
  keep_bind; [intros s; apply silent_debug|]. intros _.
  keep_bind; [apply Hr|]. intros _. apply silent_emit. in_events.
Qed.

Lemma silent_on_error (e : exn) : keeps silent (__on_error e).
Proof.
  unfold __on_error.
  keep_bind; [intros s; apply silent_debug|]. intros _.
  keep_bind; [apply silent_debug|]. intros _. apply silent_emit. in_events.
Qed.

(** X15: a client built without [isDebug] prints nothing while it runs,
    whatever the server and the listeners do: no line of the connection
    loop, of the sessions or of the emitter appears. *)
Theorem debug_off_prints_nothing (fuel : nat) (max_retries : option Z)
    (retry_interval : float) (net : nat -> connection) (self : Client) :
  plain_listeners self ->
  isDebug (opt self) = false ->
  forallb (fun ev => negb (is_print ev))
    (trace_of (_start_async json_parse EarthquakeReports EEW BasicData_init
                 fuel max_retries retry_interval net self)) = true.
Proof.
  intros Hs Hd. destruct silent_steps as (Hw & Hr & Hc & Hsl).
  assert (keeps silent (while_true' fuel max_retries retry_interval
                          (__get_ws_url__ self) net 0)) as Hk.
  { apply keeps_while_true; try exact _; intros;
      first [ apply silent_debug | apply Hw | apply Hr | apply Hc | apply Hsl
            | apply silent_on_close | apply silent_on_error
            | apply silent_emit; in_events ]. }
  apply (Hk self Hs Hd).
Qed.

(** *** The loop as a whole *)

Lemma schedule_connect (uri : string) (t : list effect) :
  schedule (Connect uri :: t) = inl uri :: schedule t.
Proof. reflexivity. Qed.

Lemma while_true_unfold fuel max_retries retry_interval uri net retries :
  while_true' (S fuel) max_retries retry_interval uri net retries =
  bind (loop_body' max_retries retry_interval uri (net retries) retries)
    (fun cr => match cr with
               | (Break, retries) => ret (Some retries)
               | (Continue, retries) =>
                   while_true' fuel max_retries retry_interval uri net retries
               end).
Proof. reflexivity. Qed.

Lemma while_true_schedule fuel max_retries retry_interval uri net retries (s : Client) :
  let run := while_true' fuel max_retries retry_interval uri net retries s in
  match result_of run with
  | Ok None => schedule (trace_of run) = rounds uri retry_interval fuel
  | _ => exists k, k < fuel /\
                   schedule (trace_of run) = rounds uri retry_interval k ++ [inl uri]
  end.
Proof.
  revert retries s. induction fuel as [|fuel IH]; intros retries s; [reflexivity|].
  cbn zeta. rewrite while_true_unfold. unfold bind. rewrite loop_body_unfold.
  destruct (attempt_trace json_parse EarthquakeReports EEW BasicData_init
              uri retries (net retries) s) as (t & Ht & Hsch & _).
  destruct (attempt' uri retries (net retries) s) as [[r s1] t1].
  unfold trace_of in Ht. cbn [snd] in Ht. subst t1.
  destruct r as [[|]|e].
  - unfold result_of, trace_of. cbn [ret fst snd].
    exists 0. split; [lia|].
    rewrite ?app_nil_r, ?schedule_app, ?schedule_debug_output, ?schedule_connect, ?Hsch.
    reflexivity.
  - destruct (max_retries_reached max_retries (retries + 1)).
    + unfold result_of, trace_of. cbn [ret fst snd].
      exists 0. split; [lia|].
      rewrite ?app_nil_r, ?schedule_app, ?schedule_debug_output, ?schedule_connect, ?Hsch.
      reflexivity.
    + specialize (IH (retries + 1) s1). cbn zeta in IH. cbn beta iota zeta.
      destruct (while_true' fuel max_retries retry_interval uri net (retries + 1) s1)
        as [[r2 s2] t2].
      unfold result_of, trace_of in *. cbn [fst snd] in *.
      assert (schedule
                ((debug_output s (Connecting uri (retries + 1)) ++
                  (Connect uri :: t) ++
                  debug_output s1 (Waiting retry_interval) ++ [Sleep retry_interval]) ++ t2) =
              inl uri :: inr retry_interval :: schedule t2) as Hall.
      { rewrite !schedule_app, !schedule_debug_output, schedule_connect, Hsch.
        reflexivity. }
      destruct r2 as [[n|]|e]; cbn iota in IH |- *.
      * destruct IH as (k & Hk & IH). exists (S k). split; [lia|].
        rewrite Hall, IH. reflexivity.
      * rewrite Hall, IH. reflexivity.
      * destruct IH as (k & Hk & IH). exists (S k). split; [lia|].
        rewrite Hall, IH. reflexivity.
  - unfold result_of, trace_of. cbn [fst snd].
    exists 0. split; [lia|].
    rewrite ?app_nil_r, ?schedule_app, ?schedule_debug_output, ?schedule_connect, ?Hsch.
    reflexivity.
Qed.


Lemma while_true_unbounded (retry_interval : float) (uri : string)
    (net : nat -> connection) (base : Client) :
  plain_listeners base ->
  (forall i s, attrs s = attrs base -> opt s = opt base ->
               result_of (attempt' uri i (net i) s) = Ok Continue) ->
  forall fuel retries s,
    attrs s = attrs base -> opt s = opt base ->
    result_of (while_true' fuel None retry_interval uri net retries s) = Ok None.
Proof.
  intros Hbase Hfail fuel. induction fuel as [|fuel IH]; intros retries s Ha Ho;
    [reflexivity|].
  cbn [while_true]. unfold bind. rewrite loop_body_unfold.
  pose proof (Hfail retries s Ha Ho) as Hr.
  pose proof (attempt_same json_parse EarthquakeReports EEW BasicData_init
                uri retries (net retries) s (plain_listeners_attrs base s Ha Hbase))
    as [Ha1 Ho1].
  destruct (attempt' uri retries (net retries) s) as [[r s1] t1].
  unfold result_of, self_of in *. cbn [fst snd] in *. subst r. cbn.
  specialize (IH (retries + 1) s1 ltac:(congruence) ltac:(congruence)).
  destruct (while_true' fuel None retry_interval uri net (retries + 1) s1) as [[r2 s2] t2].
  exact IH.
Qed.


Lemma not_Exception_not_ConnectionClosed (e : exn) :
  is_Exception e = false -> is_ConnectionClosed e = false.
Proof. unfold is_Exception, is_ConnectionClosed. destruct (exn_cls e); congruence. Qed.


Lemma attempt_raise_leaves_loop fuel max_retries retry_interval uri net retries
    (s : Client) (e : exn) :
  result_of (attempt' uri retries (net retries) s) = Raise e ->
  let turn := attempt' uri retries (net retries) s in
  let run := while_true' (S fuel) max_retries retry_interval uri net retries s in
  run = (Raise e, self_of turn,
         debug_output s (Connecting uri (retries + 1)) ++ trace_of turn) /\
  schedule (trace_of run) = [inl uri].
Proof.
  intros Hr turn run.
  assert (run = (Raise e, self_of turn,
                 debug_output s (Connecting uri (retries + 1)) ++ trace_of turn)) as Hrun.
  { subst run turn. cbn [while_true]. unfold bind. rewrite loop_body_unfold.
    destruct (attempt' uri retries (net retries) s) as [[r s1] t1].
    unfold result_of in Hr. cbn [fst] in Hr. subst r. reflexivity. }
  split; [exact Hrun|]. rewrite Hrun. unfold trace_of at 1. cbn [snd].
  destruct (attempt_trace json_parse EarthquakeReports EEW BasicData_init
              uri retries (net retries) s) as (t & Ht & Hsch & _).
  fold turn in Ht. rewrite Ht, schedule_app, schedule_debug_output, schedule_connect, Hsch.
  reflexivity.
Qed.


End ClientMore.


(** ** The further properties at work *)

Lemma frames_are_published_in_receipt_order_witness :
  raw_messages
    (trace_of (receive sample_json_parse sample_EarthquakeReports sample_EEW
                 sample_BasicData_init [frame_earthquake; frame_malformed; frame_tsunami]
                 CloseOK (client_with false []))) =
  [frame_earthquake; frame_malformed; frame_tsunami].
Proof.
  destruct (frames_are_published_in_receipt_order sample_json_parse
              sample_EarthquakeReports sample_EEW sample_BasicData_init
              [frame_earthquake; frame_malformed; frame_tsunami] CloseOK
              (client_with false [])) as [_ H].
  apply H. vm_compute. reflexivity.
Defined.





Lemma debug_off_prints_nothing_witness :
  forallb (fun ev => negb (is_print ev))
    (trace_of (sample_start_async 3 (Some 3%Z) 5%float
                 (fun _ => Accepted [frame_malformed] (RecvRaises refused))
                 (client_with false [returning "error"]))) = true.
Proof.
  apply (debug_off_prints_nothing sample_json_parse sample_EarthquakeReports sample_EEW
           sample_BasicData_init 3 (Some 3%Z) 5%float
           (fun _ => Accepted [frame_malformed] (RecvRaises refused))
           (client_with false [returning "error"])).
  - apply client_with_plain.
  - reflexivity.
Defined.




